(** * translate_wav.py: a shallow embedding and its properties

    The program submits a WAV recording to a cloud speech-translation
    session, collects the finalized translations through callbacks, and
    optionally writes them to a text file.

    Layout of the development:
    - [PyStr]: Python [str] values as sequences of code points, with the
      few string operations the program uses and the UTF-8 codec used by
      [open(..., encoding="utf-8")];
    - [Sdk]: the data the speech SDK hands to the callbacks;
    - [Collector]: the four callbacks of [translate_wav] and the state
      they close over;
    - [Driver]: the busy-wait loop against a collaborator that delivers
      events on its own schedule;
    - [Run]: [translate_wav] itself, in a small monad over the file
      system and an effect trace;
    - [Script]: the module's top-level statements and name resolution;
    - [Spec]: the collector as the specification words it;
    - [Sample]: concrete hosts, files, sessions and interpreters. *)

From Stdlib Require Import Ascii String.
From stdpp Require Import gmap strings list fin_maps.

Set Warnings "-register-all".

Local Open Scope N_scope.

(* ===================================================================== *)
(** ** Python strings *)
(* ===================================================================== *)

Module PyStr.

(** A Python [str] is a sequence of Unicode code points. *)
Abbreviation str := (list N).

(** An ASCII literal of the source, as a [str]. *)
Definition lit (s : string) : str :=
  List.map N_of_ascii (list_ascii_of_string s).

(** Truth value of a [str] in a condition: non-empty. *)
Definition truthy (s : str) : bool :=
  match s with
  | [] => false
  | _ :: _ => true
  end.

(** Truth value of [x] where [x] is [None] or a [str]. *)
Definition truthy_opt (o : option str) : bool :=
  match o with
  | None => false
  | Some s => truthy s
  end.

(** [sep.join(parts)] *)
Fixpoint join (sep : str) (parts : list str) : str :=
  match parts with
  | [] => []
  | [p] => p
  | p :: rest => p ++ sep ++ join sep rest
  end.

Fixpoint starts_with (s p : str) : bool :=
  match p, s with
  | [], _ => true
  | _ :: _, [] => false
  | c :: p', d :: s' => N.eqb c d && starts_with s' p'
  end.

(** [p in s] *)
Fixpoint contains (s p : str) : bool :=
  starts_with s p ||
  match s with
  | [] => false
  | _ :: s' => contains s' p
  end.

(** The line feed character, ["\n"]. *)
Definition LF : str := [10].

(** *** The UTF-8 codec *)

Definition byte_of_N (n : N) : Byte.byte :=
  match Byte.of_N (n mod 256) with
  | Some b => b
  | None => Byte.x00
  end.

Definition continuation (n : N) : Byte.byte :=
  byte_of_N (N.lor 128 (N.land n 63)).

(** One code point; surrogates (and anything above U+10FFFF) have no
    encoding, which the codec reports as [UnicodeEncodeError]. *)
Definition utf8_encode_cp (c : N) : option (list Byte.byte) :=
  if c <? 128 then Some [byte_of_N c]
  else if c <? 2048 then
    Some [byte_of_N (N.lor 192 (N.shiftr c 6)); continuation c]
  else if c <? 65536 then
    if (55296 <=? c) && (c <=? 57343) then None
    else Some [byte_of_N (N.lor 224 (N.shiftr c 12));
               continuation (N.shiftr c 6); continuation c]
  else if c <? 1114112 then
    Some [byte_of_N (N.lor 240 (N.shiftr c 18));
          continuation (N.shiftr c 12);
          continuation (N.shiftr c 6); continuation c]
  else None.

Fixpoint utf8_encode (s : str) : option (list Byte.byte) :=
  match s with
  | [] => Some []
  | c :: s' =>
      match utf8_encode_cp c, utf8_encode s' with
      | Some b, Some bs => Some (b ++ bs)
      | _, _ => None
      end
  end.

(** Text-mode files opened with the default [newline=None] write every
    ["\n"] as the platform's line separator [os.linesep]. *)
Definition translate_newlines (linesep : str) (s : str) : str :=
  flat_map (fun c => if c =? 10 then linesep else [c]) s.

End PyStr.

Import PyStr.

(* ===================================================================== *)
(** ** What the SDK hands to the callbacks *)
(* ===================================================================== *)

Module Sdk.

(** [speechsdk.ResultReason], the members a recognizer can report. *)
Inductive ResultReason :=
  | NoMatch
  | ReasonCanceled
  | RecognizingSpeech
  | RecognizedSpeech
  | TranslatingSpeech
  | TranslatedSpeech.

(** [speechsdk.CancellationReason] *)
Inductive CancellationReason :=
  | Error
  | EndOfStream
  | CancelledByUser.

(** [evt.result] of a recognition event: [text] may be [None] or a
    [str]; [translations] is a dict from target language code to text. *)
Record result := {
  reason : ResultReason;
  text : option str;
  translations : gmap str str
}.

(** An event raised by the recognizer, named after the signal that
    carries it.  Signals without a connected callback are [Unhandled]. *)
Inductive event :=
  | Recognizing (r : result)
  | Recognized (r : result)
  | Canceled (why : CancellationReason) (error_details : str)
  | SessionStopped
  | Unhandled.

#[global] Instance ResultReason_eq_dec : EqDecision ResultReason.
Proof. solve_decision. Defined.

#[global] Instance CancellationReason_eq_dec : EqDecision CancellationReason.
Proof. solve_decision. Defined.

End Sdk.

Import Sdk.

(* ===================================================================== *)
(** ** Console output *)
(* ===================================================================== *)

(** Each [print] of the source, with the values its f-string formats. *)
Inductive console_line :=
  | LineSrc (src_text : str)                       (* [SRC] ... *)
  | LineTgt (target_language tgt_text : str)       (* [LANG] ...\n *)
  | LineSrcOnly (text : str)                       (* [SRC only] ...\n *)
  | LineCanceled (why : CancellationReason)        (* Canceled: ... *)
  | LineErrorDetails (error_details : str)         (* Error details: ... *)
  | LineStarting                                   (* Starting translation... *)
  | LineSaved (output_txt : str).                  (* Saved translated text *)

(* ===================================================================== *)
(** ** The event collector: the callbacks and their closure state *)
(* ===================================================================== *)

Module Collector.

(** The three variables of [translate_wav] the callbacks close over. *)
Record state := {
  translated_lines : list str;
  recognized_lines : list str;
  done : bool
}.

Definition init : state :=
  {| translated_lines := []; recognized_lines := []; done := false |}.

Definition set_done (st : state) : state :=
  {| translated_lines := translated_lines st;
     recognized_lines := recognized_lines st;
     done := true |}.

(** A callback returns the new closure state and the lines it printed. *)
Definition handle_recognizing (r : result) (st : state)
  : state * list console_line :=
  (st, []).

Definition handle_recognized (target_language : str) (r : result) (st : state)
  : state * list console_line :=
  match reason r with
  | TranslatedSpeech =>
      let src_text := default [] (text r) in
      let tgt_text := default [] (translations r !! target_language) in
      if truthy tgt_text then
        ({| translated_lines := translated_lines st ++ [tgt_text];
            recognized_lines := recognized_lines st ++ [src_text];
            done := done st |},
         [LineSrc src_text; LineTgt target_language tgt_text])
      else (st, [])
  | RecognizedSpeech =>
      if truthy_opt (text r)
      then (st, [LineSrcOnly (default [] (text r))])
      else (st, [])
  | NoMatch => (st, [])
  | _ => (st, [])
  end.

Definition handle_canceled (why : CancellationReason) (error_details : str)
  (st : state) : state * list console_line :=
  (set_done st,
   LineCanceled why ::
   (if decide (why = Error) then [LineErrorDetails error_details] else [])).

Definition handle_session_stopped (st : state) : state * list console_line :=
  (set_done st, []).

(** The recognizer calls the callback connected to the event's signal. *)
Definition dispatch (target_language : str) (ev : event) (st : state)
  : state * list console_line :=
  match ev with
  | Recognizing r => handle_recognizing r st
  | Recognized r => handle_recognized target_language r st
  | Canceled why d => handle_canceled why d st
  | SessionStopped => handle_session_stopped st
  | Unhandled => (st, [])
  end.

(** Delivery of a batch of events, in order. *)
Fixpoint deliver_all (target_language : str) (evs : list event) (st : state)
  : state * list console_line :=
  match evs with
  | [] => (st, [])
  | ev :: evs' =>
      let '(st1, out1) := dispatch target_language ev st in
      let '(st2, out2) := deliver_all target_language evs' st1 in
      (st2, out1 ++ out2)
  end.

(** The collector run on finalized results only. *)
Definition collect (target_language : str) (rs : list result) : state :=
  fst (deliver_all target_language (List.map Recognized rs) init).

End Collector.

(* ===================================================================== *)
(** ** The session driver against its collaborator *)
(* ===================================================================== *)

Module Driver.

Import Collector.

(** The recognizer as the driver sees it.  It owns the threads that run
    the callbacks, so the program controls neither which events arrive
    nor when:
    - [stream]: the events the session raises, in order;
    - [deliveries i]: how many of them its threads hand to the callbacks
      while the driver goes round its wait loop for the [i]-th time;
    - [on_stop]: how many more it hands over while
      [stop_continuous_recognition()] runs; none arrive afterwards. *)
Record collaborator := {
  stream : list event;
  deliveries : nat -> nat;
  on_stop : nat
}.

(** The callbacks run for the next [k] pending events. *)
Definition deliver (target_language : str) (k : nat)
  (st : state) (pending : list event)
  : state * list console_line * list event :=
  let '(st', out) := deliver_all target_language (take k pending) st in
  (st', out, drop k pending).

(** [while not done: pass].  The loop has no exit other than [done], so
    the embedding carries fuel: [None] is a loop that is still spinning
    when the fuel is gone. *)
Fixpoint wait_loop (target_language : str) (fuel : nat)
  (sched : nat -> nat) (i : nat) (st : state) (pending : list event)
  : option (state * list console_line * list event) :=
  if done st then Some (st, [], pending)
  else
    match fuel with
    | O => None
    | S fuel' =>
        let '(st1, out1, pending1) :=
          deliver target_language (sched i) st pending in
        match wait_loop target_language fuel' sched (S i) st1 pending1 with
        | Some (st2, out2, pending2) => Some (st2, out1 ++ out2, pending2)
        | None => None
        end
    end.

(** The events whose callbacks set [done]. *)
Definition terminal (ev : event) : bool :=
  match ev with
  | Canceled _ _ | SessionStopped => true
  | _ => false
  end.

(** Events handed over during the first [n] rounds of the loop. *)
Fixpoint delivered (sched : nat -> nat) (i n : nat) : nat :=
  match n with
  | O => O
  | S n' => (sched i + delivered sched (S i) n')%nat
  end.

End Driver.

(* ===================================================================== *)
(** ** translate_wav *)
(* ===================================================================== *)

Module Run.

Import Collector Driver.

(** *** The world outside the function *)

Inductive node :=
  | RegularFile (content : list Byte.byte)
  | Directory.

(** The process environment and the platform's line separator. *)
Record host := {
  environ : gmap str str;
  linesep : str
}.

(** *** SDK configuration objects *)

Record SpeechTranslationConfig := {
  subscription : str;
  region : str;
  speech_recognition_language : option str;
  target_languages : list str
}.

Record AutoDetectSourceLanguageConfig := { languages : list str }.

Record AudioConfig := { filename : str }.

Record TranslationRecognizer := {
  translation_config : SpeechTranslationConfig;
  audio_config : AudioConfig;
  auto_detect_source_language_config : option AutoDetectSourceLanguageConfig
}.

Definition new_translation_config (key reg : str) : SpeechTranslationConfig :=
  {| subscription := key; region := reg;
     speech_recognition_language := None; target_languages := [] |}.

Definition set_speech_recognition_language
  (c : SpeechTranslationConfig) (l : str) : SpeechTranslationConfig :=
  {| subscription := subscription c; region := region c;
     speech_recognition_language := Some l;
     target_languages := target_languages c |}.

Definition add_target_language
  (c : SpeechTranslationConfig) (l : str) : SpeechTranslationConfig :=
  {| subscription := subscription c; region := region c;
     speech_recognition_language := speech_recognition_language c;
     target_languages := target_languages c ++ [l] |}.

Inductive signal := SigRecognizing | SigRecognized | SigCanceled | SigSessionStopped.

(** *** Effects and exceptions *)

Inductive effect :=
  | Getenv (name : str)
  | IsFile (path : str)
  | NewTranslationConfig (key reg : str)
  | NewAutoDetect (langs : list str)
  | NewAudioConfig (file : str)
  | NewRecognizer (r : TranslationRecognizer)
  | Connect (s : signal)
  | Print (l : console_line)
  | StartContinuousRecognition
  | StopContinuousRecognition
  | OpenWrite (path : str)
  | FileWrite (path : str) (data : list Byte.byte).

Inductive exn :=
  | RuntimeError (msg : str)
  | FileNotFoundError (msg : str)
  | IsADirectoryError (path : str)
  | UnicodeEncodeError.

Inductive outcome (A : Type) :=
  | Returned (a : A)
  | Raised (e : exn)
  | Hangs.

Arguments Returned {A} a.
Arguments Raised {A} e.
Arguments Hangs {A}.

Record world := {
  fs : gmap str node;
  trace : list effect
}.

(** *** The monad: state over [world], exceptions, divergence *)

Definition M (A : Type) : Type := world -> outcome A * world.

#[global] Instance M_ret : MRet M := fun A a w => (Returned a, w).

#[global] Instance M_bind : MBind M := fun A B f m w =>
  match m w with
  | (Returned a, w') => f a w'
  | (Raised e, w') => (Raised e, w')
  | (Hangs, w') => (Hangs, w')
  end.

Definition raise {A : Type} (e : exn) : M A := fun w => (Raised e, w).

Definition hang {A : Type} : M A := fun w => (Hangs, w).

Definition log (e : effect) : M unit := fun w =>
  (Returned tt, {| fs := fs w; trace := trace w ++ [e] |}).

Definition logs (es : list effect) : M unit := fun w =>
  (Returned tt, {| fs := fs w; trace := trace w ++ es |}).

(** *** Primitives of the standard library *)

(** [os.getenv(name)] *)
Definition getenv (h : host) (name : str) : M (option str) :=
  log (Getenv name);; mret (environ h !! name).

Definition is_regular_file (files : gmap str node) (path : str) : bool :=
  match files !! path with
  | Some (RegularFile _) => true
  | _ => false
  end.

(** [os.path.isfile(path)] *)
Definition isfile (path : str) : M bool := fun w =>
  (Returned (is_regular_file (fs w) path),
   {| fs := fs w; trace := trace w ++ [IsFile path] |}).

(** [open(path, "w", encoding="utf-8")]: creates the file or truncates
    it; a directory cannot be opened for writing. *)
Definition open_w (path : str) : M unit := fun w =>
  match fs w !! path with
  | Some Directory =>
      (Raised (IsADirectoryError path),
       {| fs := fs w; trace := trace w ++ [OpenWrite path] |})
  | _ =>
      (Returned tt,
       {| fs := <[path := RegularFile []]> (fs w);
          trace := trace w ++ [OpenWrite path] |})
  end.

Definition content_of (m : gmap str node) (path : str) : list Byte.byte :=
  match m !! path with
  | Some (RegularFile c) => c
  | _ => []
  end.

(** [f.write(s)] on a text file opened as above. *)
Definition write_text (h : host) (path : str) (s : str) : M unit := fun w =>
  match utf8_encode (translate_newlines (linesep h) s) with
  | None => (Raised UnicodeEncodeError, w)
  | Some data =>
      (Returned tt,
       {| fs := <[path := RegularFile (content_of (fs w) path ++ data)]> (fs w);
          trace := trace w ++ [FileWrite path data] |})
  end.

Definition print (l : console_line) : M unit := log (Print l).

(** *** The function, section by section *)

Definition KEY_VAR : str := lit "AZURE_SPEECH_KEY".
Definition REGION_VAR : str := lit "AZURE_SPEECH_REGION".

Definition missing_credentials_message : str :=
  lit "Please set AZURE_SPEECH_KEY and AZURE_SPEECH_REGION environment variables.".

Definition not_found_message (wav_path : str) : str :=
  lit "WAV file not found: " ++ wav_path.

(** The candidate list of the auto-detect branch. *)
Definition default_languages : list str :=
  [lit "en-US"; lit "hi-IN"; lit "mr-IN"; lit "gu-IN";
   lit "ta-IN"; lit "te-IN"; lit "bn-IN"].

(** Steps 1 to 3: translation config, audio input, recognizer. *)
Definition configure (speech_key speech_region wav_path target_language : str)
  (source_language : option str) : M TranslationRecognizer :=
  log (NewTranslationConfig speech_key speech_region);;
  let translation_config := new_translation_config speech_key speech_region in
  '(translation_config, auto_langs) ←
    (if truthy_opt source_language then
       mret (set_speech_recognition_language translation_config
               (default [] source_language), None)
     else
       log (NewAutoDetect default_languages);;
       mret (translation_config, Some {| languages := default_languages |}));
  let translation_config :=
    add_target_language translation_config target_language in
  log (NewAudioConfig wav_path);;
  let audio_config := {| filename := wav_path |} in
  let recognizer :=
    if truthy_opt source_language then
      {| translation_config := translation_config;
         audio_config := audio_config;
         auto_detect_source_language_config := None |}
    else
      {| translation_config := translation_config;
         audio_config := audio_config;
         auto_detect_source_language_config := auto_langs |} in
  log (NewRecognizer recognizer);;
  mret recognizer.

(** Connecting the callbacks, starting the session, waiting for [done],
    stopping the session.  The value is the closure state the callbacks
    leave behind.  What the callbacks print is entered in the trace when
    the loop ends; of a run that hangs the trace keeps the part before
    the loop. *)
Definition run_session (sdk : collaborator) (fuel : nat)
  (target_language : str) : M Collector.state :=
  log (Connect SigRecognizing);;
  log (Connect SigRecognized);;
  log (Connect SigCanceled);;
  log (Connect SigSessionStopped);;
  print LineStarting;;
  log StartContinuousRecognition;;
  match wait_loop target_language fuel (deliveries sdk) 0
          Collector.init (stream sdk) with
  | None => hang
  | Some (st, out, pending) =>
      logs (Print <$> out);;
      log StopContinuousRecognition;;
      let '(st', out') :=
        deliver_all target_language (take (on_stop sdk) pending) st in
      logs (Print <$> out');;
      mret st'
  end.

(** "Save to file if requested" *)
Definition write_output (h : host) (translated_lines : list str)
  (output_txt : option str) : M unit :=
  if truthy_opt output_txt then
    let path := default [] output_txt in
    open_w path;;
    write_text h path (join LF translated_lines);;
    print (LineSaved path)
  else mret tt.

Definition translate_wav (h : host) (sdk : collaborator) (fuel : nat)
  (wav_path target_language : str)
  (source_language output_txt : option str)
  : M (list str * list str) :=
  speech_key ← getenv h KEY_VAR;
  speech_region ← getenv h REGION_VAR;
  if negb (truthy_opt speech_key) || negb (truthy_opt speech_region) then
    raise (RuntimeError missing_credentials_message)
  else
    found ← isfile wav_path;
    if negb found then
      raise (FileNotFoundError (not_found_message wav_path))
    else
      configure (default [] speech_key) (default [] speech_region)
        wav_path target_language source_language;;
      st ← run_session sdk fuel target_language;
      write_output h (translated_lines st) output_txt;;
      mret (translated_lines st, recognized_lines st).

(** A world in which nothing has happened yet. *)
Definition fresh (files : gmap str node) : world :=
  {| fs := files; trace := [] |}.

(** *** Vocabulary for the statements below *)

(** Both credentials are set to non-empty values. *)
Definition credentials_present (h : host) : Prop :=
  truthy_opt (environ h !! KEY_VAR) = true /\
  truthy_opt (environ h !! REGION_VAR) = true.

(** Effects that touch the file system. *)
Definition file_access (e : effect) : bool :=
  match e with
  | IsFile _ | NewAudioConfig _ | OpenWrite _ | FileWrite _ _ => true
  | _ => false
  end.

(** Effects that talk to the speech service. *)
Definition network_access (e : effect) : bool :=
  match e with
  | NewRecognizer _ | StartContinuousRecognition
  | StopContinuousRecognition => true
  | _ => false
  end.

(** Effects that create or change a file. *)
Definition writes_file (e : effect) : bool :=
  match e with
  | OpenWrite _ | FileWrite _ _ => true
  | _ => false
  end.

(** Effects that construct an object of the session configuration. *)
Definition constructs_session_object (e : effect) : bool :=
  match e with
  | NewTranslationConfig _ _ | NewAutoDetect _
  | NewAudioConfig _ | NewRecognizer _ => true
  | _ => false
  end.

(** The outcome of the function once the session is over: the bundle,
    unless the output writer raised. *)
Definition after_write {A : Type} (written : outcome unit) (a : A) : outcome A :=
  match written with
  | Returned _ => Returned a
  | Raised e => Raised e
  | Hangs => Hangs
  end.

(** What [run_session] does before the first round of its loop. *)
Definition session_prologue : list effect :=
  [Connect SigRecognizing; Connect SigRecognized; Connect SigCanceled;
   Connect SigSessionStopped; Print LineStarting; StartContinuousRecognition].

(** The invariant of the session configuration: exactly one target
    language, the requested one, and a non-empty candidate list when no
    source language is given. *)
Definition well_configured (target_language : str)
  (source_language : option str) (r : TranslationRecognizer) : Prop :=
  target_languages (translation_config r) = [target_language] /\
  (truthy_opt source_language = false ->
   exists c, auto_detect_source_language_config r = Some c /\
             languages c <> []).

(** Every recognizer an effect constructs is well configured. *)
Definition configures_well (target_language : str)
  (source_language : option str) (e : effect) : Prop :=
  match e with
  | NewRecognizer r => well_configured target_language source_language r
  | _ => True
  end.

(** A computation all of whose effects satisfy [P]. *)
Definition emits {A : Type} (P : effect -> Prop) (m : M A) : Prop :=
  forall w, Forall P (trace w) -> Forall P (trace (m w).2).

(** A computation that leaves every file as it is. *)
Definition keeps_files {A : Type} (m : M A) : Prop :=
  forall w, fs (m w).2 = fs w.

(** The same collaborator with another stream of events. *)
Definition with_stream (sdk : collaborator) (evs : list event) : collaborator :=
  {| stream := evs; deliveries := deliveries sdk; on_stop := on_stop sdk |}.

End Run.

(* ===================================================================== *)
(** ** The module's top level *)
(* ===================================================================== *)

Module Script.

(** Running the file executes its top-level statements in order: five
    imports, two [def]s and the entry-point guard.  What matters for
    them is which names are bound when an expression is evaluated, so
    the statements are kept as data and run by a small evaluator. *)

Inductive value :=
  | VModule (name : string)
  | VFunction (name : string)
  | VClass (name : string)
  | VBuiltin (name : string)
  | VStr (s : string)
  | VBool (b : bool)
  | VNone.

Inductive expr :=
  | EName (id : string)
  | EStr (s : string)
  | EEq (a b : expr)
  | ECall (f : expr).

(** A [def] evaluates the annotations of its parameters when it is
    executed; [union_annotations] records that some of them are written
    [X | None]. *)
Inductive stmt :=
  | Import (module : string) (binds : string)
  | FromImport (module : string) (name : string)
  | Def (name : string) (union_annotations : bool)
  | If (cond : expr) (body : list stmt)
  | Expr (e : expr).

Inductive error :=
  | NameError (id : string)
  | ImportError (module : string)
  | TypeError.

(** The interpreter the file runs under: the names of its [builtins]
    module, the modules it can import, and whether it executes a [def]
    with an annotation [str | None] (from Python 3.10 on; before that
    [|] on types is a type error raised by the [def]). *)
Record interpreter := {
  builtins : gset string;
  importable : string -> bool;
  union_types : bool
}.

(** Module globals and the functions of this file called so far. *)
Record frame := {
  globals : gmap string value;
  calls : list string
}.

Definition bind (id : string) (v : value) (f : frame) : frame :=
  {| globals := <[id := v]> (globals f); calls := calls f |}.

#[global] Instance value_eq_dec : EqDecision value.
Proof. solve_decision. Defined.

Definition truth (v : value) : bool :=
  match v with
  | VBool b => b
  | VStr s => negb (String.eqb s "")
  | VNone => false
  | _ => true
  end.

(** A name is looked up in the module globals, then in the builtins. *)
Definition lookup_name (py : interpreter) (id : string) (f : frame)
  : error + value :=
  match globals f !! id with
  | Some v => inr v
  | None =>
      if decide (id ∈ builtins py) then inr (VBuiltin id)
      else inl (NameError id)
  end.

Fixpoint eval (py : interpreter) (e : expr) (f : frame)
  : error + (value * frame) :=
  match e with
  | EName id =>
      match lookup_name py id f with
      | inl err => inl err
      | inr v => inr (v, f)
      end
  | EStr s => inr (VStr s, f)
  | EEq a b =>
      match eval py a f with
      | inl err => inl err
      | inr (va, f1) =>
          match eval py b f1 with
          | inl err => inl err
          | inr (vb, f2) => inr (VBool (bool_decide (va = vb)), f2)
          end
      end
  | ECall g =>
      match eval py g f with
      | inl err => inl err
      | inr (VFunction name, f1) =>
          inr (VNone, {| globals := globals f1; calls := calls f1 ++ [name] |})
      | inr (_, _) => inl TypeError
      end
  end.

(** A statement yields the frame it leaves and, if it raised, the error. *)
Fixpoint exec (py : interpreter) (s : stmt) (f : frame)
  : option error * frame :=
  match s with
  | Import module binds =>
      if importable py module then (None, bind binds (VModule module) f)
      else (Some (ImportError module), f)
  | FromImport module name =>
      if importable py module then (None, bind name (VClass name) f)
      else (Some (ImportError module), f)
  | Def name union_annotations =>
      if union_annotations && negb (union_types py) then (Some TypeError, f)
      else (None, bind name (VFunction name) f)
  | If cond body =>
      match eval py cond f with
      | inl err => (Some err, f)
      | inr (v, f1) =>
          if truth v then
            (fix block (l : list stmt) (f : frame) : option error * frame :=
               match l with
               | [] => (None, f)
               | s' :: l' =>
                   match exec py s' f with
                   | (None, f') => block l' f'
                   | (Some err, f') => (Some err, f')
                   end
               end) body f1
          else (None, f1)
      end
  | Expr e =>
      match eval py e f with
      | inl err => (Some err, f)
      | inr (_, f1) => (None, f1)
      end
  end.

Fixpoint exec_block (py : interpreter) (l : list stmt) (f : frame)
  : option error * frame :=
  match l with
  | [] => (None, f)
  | s :: l' =>
      match exec py s f with
      | (None, f') => exec_block py l' f'
      | (Some err, f') => (Some err, f')
      end
  end.

(** The globals of a file run as a script, before its first statement. *)
Definition script_frame (file : string) : frame :=
  {| globals :=
       list_to_map
         [("__name__", VStr "__main__"); ("__doc__", VNone);
          ("__package__", VNone); ("__loader__", VBuiltin "__loader__");
          ("__spec__", VNone); ("__builtins__", VModule "builtins");
          ("__file__", VStr file); ("__cached__", VNone)];
     calls := [] |}.

(** The top level of translate_wav.py. *)
Definition entry_guard : stmt :=
  If (EEq (EName "name") (EStr "main")) [Expr (ECall (EName "main"))].

(** The statements of the file, ending with a guard. *)
Definition top_level (guard : stmt) : list stmt :=
  [Import "os" "os";
   Import "sys" "sys";
   Import "argparse" "argparse";
   Import "azure.cognitiveservices.speech" "speechsdk";
   FromImport "datetime" "datetime";
   Def "translate_wav" true;
   Def "main" false;
   guard].

Definition translate_wav_py : list stmt := top_level entry_guard.

Definition run_script (py : interpreter) (file : string)
  : option error * frame :=
  exec_block py translate_wav_py (script_frame file).

(** The conventional guard, for comparison. *)
Definition conventional_guard : stmt :=
  If (EEq (EName "__name__") (EStr "__main__"))
     [Expr (ECall (EName "main"))].

(** The frame after the imports and the two [def]s. *)
Definition frame_at_guard (file : string) : frame :=
  bind "main" (VFunction "main")
    (bind "translate_wav" (VFunction "translate_wav")
       (bind "datetime" (VClass "datetime")
          (bind "speechsdk" (VModule "azure.cognitiveservices.speech")
             (bind "argparse" (VModule "argparse")
                (bind "sys" (VModule "sys")
                   (bind "os" (VModule "os") (script_frame file))))))).

End Script.

(* ===================================================================== *)
(** ** The collector as the specification words it *)
(* ===================================================================== *)

Module Spec.

(** The source text of a finalized event (an absent text reads as ""). *)
Definition source_text (r : result) : str := default [] (text r).

(** The translation an event carries for the target language: the event
    is a successful translation, the language is a key of its
    translations, and the text under it is non-empty. *)
Definition translation_for (target_language : str) (r : result) : option str :=
  if decide (reason r = TranslatedSpeech) then
    match translations r !! target_language with
    | Some t => if truthy t then Some t else None
    | None => None
    end
  else None.

(** The segment {source_text, translated_text} of such an event. *)
Definition segment (target_language : str) (r : result) : option (str * str) :=
  match translation_for target_language r with
  | Some t => Some (source_text r, t)
  | None => None
  end.

(** The translations present and non-empty, in arrival order. *)
Definition translated_lines (target_language : str) (rs : list result)
  : list str :=
  omap (translation_for target_language) rs.

(** The source texts of exactly those events. *)
Definition recognized_lines (target_language : str) (rs : list result)
  : list str :=
  source_text <$>
    filter (fun r => is_Some (translation_for target_language r)) rs.

(** The finalized results among the events of a stream. *)
Definition finalized (evs : list event) : list result :=
  omap (fun ev => match ev with Recognized r => Some r | _ => None end) evs.

(** The closure state with one more segment. *)
Definition appended (st : Collector.state) (seg : str * str) : Collector.state :=
  {| Collector.translated_lines := Collector.translated_lines st ++ [seg.2];
     Collector.recognized_lines := Collector.recognized_lines st ++ [seg.1];
     Collector.done := Collector.done st |}.

(** A diagnostic line is printed for the event, and nothing else happens. *)
Definition emits_diagnostic_only (target_language : str) (r : result)
  (st : Collector.state) : Prop :=
  exists l, Collector.handle_recognized target_language r st = (st, [l]).

End Spec.

(* ===================================================================== *)
(** ** Sample data *)
(* ===================================================================== *)

Module Sample.

Definition es : str := lit "es".

(** A translated utterance. *)
Definition translated (src tgt : string) : result :=
  {| reason := TranslatedSpeech;
     text := Some (lit src);
     translations := {[ es := lit tgt ]} |}.

Definition hola : result := translated "Hello" "Hola".
Definition mundo : result := translated "World" "Mundo".

(** A translated utterance whose text for [es] is empty. *)
Definition blank : result := translated "Hm" "".

(** A translated utterance with no entry for [es]. *)
Definition other_language : result :=
  {| reason := TranslatedSpeech;
     text := Some (lit "Hm");
     translations := {[ lit "fr" := lit "Hum" ]} |}.

(** Recognized but not translated, with and without text. *)
Definition heard : result :=
  {| reason := RecognizedSpeech; text := Some (lit "Hello"); translations := ∅ |}.

Definition silence : result :=
  {| reason := RecognizedSpeech; text := Some []; translations := ∅ |}.

Definition no_match : result :=
  {| reason := NoMatch; text := None; translations := ∅ |}.

(** Hosts: both credentials set, and each way of missing one. *)
Definition posix : Run.host :=
  {| Run.environ := {[ Run.KEY_VAR := lit "0123abcd";
                       Run.REGION_VAR := lit "westeurope" ]};
     Run.linesep := LF |}.

Definition no_credentials : Run.host :=
  {| Run.environ := ∅; Run.linesep := LF |}.

Definition key_only : Run.host :=
  {| Run.environ := {[ Run.KEY_VAR := lit "0123abcd" ]}; Run.linesep := LF |}.

Definition region_only : Run.host :=
  {| Run.environ := {[ Run.REGION_VAR := lit "westeurope" ]};
     Run.linesep := LF |}.

Definition empty_key : Run.host :=
  {| Run.environ := {[ Run.KEY_VAR := [];
                       Run.REGION_VAR := lit "westeurope" ]};
     Run.linesep := LF |}.

(** A file system with a recording, an older output file and a directory. *)
Definition talk_wav : str := lit "talk.wav".
Definition out_txt : str := lit "out.txt".
Definition a_directory : str := lit "recordings".

Definition files : gmap str Run.node :=
  {[ talk_wav := Run.RegularFile [Byte.x52; Byte.x49; Byte.x46; Byte.x46];
     out_txt := Run.RegularFile [Byte.x6f; Byte.x6c; Byte.x64];
     a_directory := Run.Directory ]}.

(** Sessions: two translated utterances and a clean stop; one utterance
    and a failure.  One event is handed over per round of the loop. *)
Definition clean_session : Driver.collaborator :=
  {| Driver.stream := [Recognized hola; Recognized mundo; SessionStopped];
     Driver.deliveries := fun _ => 1%nat;
     Driver.on_stop := 0%nat |}.

Definition failed_session : Driver.collaborator :=
  {| Driver.stream :=
       [Recognized hola; Canceled Error (lit "connection lost")];
     Driver.deliveries := fun _ => 1%nat;
     Driver.on_stop := 0%nat |}.

(** A session that never reports its end. *)
Definition silent_session : Driver.collaborator :=
  {| Driver.stream := [Recognized hola];
     Driver.deliveries := fun _ => 1%nat;
     Driver.on_stop := 0%nat |}.

(** The interpreter of the script-level examples. *)
Definition python : Script.interpreter :=
  {| Script.builtins := {["print"; "len"; "str"; "open"; "__name__"]};
     Script.importable := fun _ => true;
     Script.union_types := true |}.

Definition python_without_sdk : Script.interpreter :=
  {| Script.builtins := {["print"; "len"; "str"; "open"; "__name__"]};
     Script.importable := fun m =>
       negb (String.eqb m "azure.cognitiveservices.speech");
     Script.union_types := true |}.

Definition python_3_9 : Script.interpreter :=
  {| Script.builtins := {["print"; "len"; "str"; "open"; "__name__"]};
     Script.importable := fun _ => true;
     Script.union_types := false |}.

End Sample.

(* ===================================================================== *)
(** ** What an observer sees *)
(* ===================================================================== *)

Module Observed.

(** The translated texts and the source texts among printed lines. *)
Definition printed_translations (out : list console_line) : list str :=
  omap (fun l => match l with LineTgt _ t => Some t | _ => None end) out.

Definition printed_sources (out : list console_line) : list str :=
  omap (fun l => match l with LineSrc s => Some s | _ => None end) out.

(** A text without a line feed in it. *)
Definition line_feed_free (s : str) : Prop := (10 : N) ∉ s.


(** The globals of the file when it is imported as a module named
    [modname] instead of being run. *)
Definition module_frame (modname file : string) : Script.frame :=
  {| Script.globals :=
       list_to_map
         [("__name__", Script.VStr modname); ("__doc__", Script.VNone);
          ("__package__", Script.VStr ""); ("__loader__", Script.VBuiltin "__loader__");
          ("__spec__", Script.VBuiltin "__spec__");
          ("__builtins__", Script.VModule "builtins");
          ("__file__", Script.VStr file); ("__cached__", Script.VStr file)];
     Script.calls := [] |}.

(** The frame the imports and [def]s build on top of [f0]. *)
Definition at_guard (f0 : Script.frame) : Script.frame :=
  Script.bind "main" (Script.VFunction "main")
    (Script.bind "translate_wav" (Script.VFunction "translate_wav")
       (Script.bind "datetime" (Script.VClass "datetime")
          (Script.bind "speechsdk"
             (Script.VModule "azure.cognitiveservices.speech")
             (Script.bind "argparse" (Script.VModule "argparse")
                (Script.bind "sys" (Script.VModule "sys")
                   (Script.bind "os" (Script.VModule "os") f0)))))).

(** More sessions: an end of stream reported as a cancellation and then
    as a stop, as the service does at the end of a file; and a stream
    that goes on after its cancellation. *)
Definition end_of_file_session : Driver.collaborator :=
  {| Driver.stream :=
       [Recognized Sample.hola; Recognizing Sample.mundo;
        Recognized Sample.mundo; Canceled EndOfStream []; SessionStopped];
     Driver.deliveries := fun i => match i with O => 0%nat | _ => 2%nat end;
     Driver.on_stop := 1%nat |}.

Definition late_result_session (k : nat) : Driver.collaborator :=
  {| Driver.stream :=
       [Recognized Sample.hola; Canceled Error (lit "timeout");
        Recognized Sample.mundo];
     Driver.deliveries := fun _ => k;
     Driver.on_stop := 0%nat |}.

End Observed.

(* ===================================================================== *)
(** ** Properties of the collector *)
(* ===================================================================== *)

Section CollectorFacts.

Import Collector.

Variable target_language : str.

Local Abbreviation L := target_language.

(** What the finalized-result callback does, case by case. *)
Lemma handle_recognized_cases (r : result) (st : state) :
  handle_recognized L r st =
  match Spec.segment L r with
  | Some seg =>
      (Spec.appended st seg, [LineSrc seg.1; LineTgt L seg.2])
  | None =>
      (st,
       if decide (reason r = RecognizedSpeech) then
         if truthy_opt (text r) then [LineSrcOnly (Spec.source_text r)] else []
       else [])
  end.
Proof.
  unfold handle_recognized, Spec.segment, Spec.translation_for, Spec.source_text.
  destruct (reason r) eqn:Hr; simpl; try reflexivity.
  - destruct (truthy_opt (text r)); reflexivity.
  - destruct (translations r !! L) as [t|]; simpl; [|reflexivity].
    destruct (truthy t); reflexivity.
Qed.

Lemma dispatch_lines (ev : event) (st : state) :
  let st' := (dispatch L ev st).1 in
  translated_lines st' =
    translated_lines st ++ Spec.translated_lines L (Spec.finalized [ev]) /\
  recognized_lines st' =
    recognized_lines st ++ Spec.recognized_lines L (Spec.finalized [ev]).
Proof.
  destruct ev as [r|r|why d| |]; simpl;
    unfold Spec.translated_lines, Spec.recognized_lines; simpl;
    rewrite ?app_nil_r; try (split; reflexivity).
  rewrite handle_recognized_cases. unfold Spec.segment.
  rewrite filter_cons, filter_nil.
  destruct (Spec.translation_for L r) as [t|] eqn:Ht; simpl;
    rewrite ?app_nil_r; split; reflexivity.
Qed.

Lemma finalized_cons (ev : event) (evs : list event) :
  Spec.finalized (ev :: evs) = Spec.finalized [ev] ++ Spec.finalized evs.
Proof. unfold Spec.finalized. simpl. destruct ev; reflexivity. Qed.

Lemma spec_translated_app (xs ys : list result) :
  Spec.translated_lines L (xs ++ ys) =
  Spec.translated_lines L xs ++ Spec.translated_lines L ys.
Proof. unfold Spec.translated_lines. apply omap_app. Qed.

Lemma spec_recognized_app (xs ys : list result) :
  Spec.recognized_lines L (xs ++ ys) =
  Spec.recognized_lines L xs ++ Spec.recognized_lines L ys.
Proof. unfold Spec.recognized_lines. rewrite filter_app, fmap_app. reflexivity. Qed.

(** The accumulators after any batch of events, from any state. *)
Lemma deliver_all_lines (evs : list event) :
  forall st : state,
  let st' := (deliver_all L evs st).1 in
  translated_lines st' =
    translated_lines st ++ Spec.translated_lines L (Spec.finalized evs) /\
  recognized_lines st' =
    recognized_lines st ++ Spec.recognized_lines L (Spec.finalized evs).
Proof.
  induction evs as [|ev evs IH]; intros st.
  - simpl. rewrite !app_nil_r. split; reflexivity.
  - rewrite finalized_cons, spec_translated_app, spec_recognized_app.
    cbn [deliver_all].
    destruct (dispatch_lines ev st) as [Ht Hr].
    destruct (dispatch L ev st) as [st1 out1] eqn:Hd. cbn [fst] in Ht, Hr.
    destruct (IH st1) as [Ht' Hr'].
    destruct (deliver_all L evs st1) as [st2 out2]. cbn [fst] in *.
    rewrite Ht', Hr', Ht, Hr, <- !app_assoc. split; reflexivity.
Qed.

Lemma finalized_recognized (rs : list result) :
  Spec.finalized (Recognized <$> rs) = rs.
Proof.
  induction rs as [|r rs IH]; [reflexivity|].
  rewrite fmap_cons, finalized_cons, IH. reflexivity.
Qed.

(** The two accumulators, zipped, are the segments of the events. *)
Lemma spec_lines_zip (rs : list result) :
  zip (Spec.recognized_lines L rs) (Spec.translated_lines L rs) =
  omap (Spec.segment L) rs.
Proof.
  unfold Spec.recognized_lines, Spec.translated_lines, Spec.segment.
  induction rs as [|r rs IH]; [reflexivity|].
  rewrite filter_cons. simpl.
  destruct (Spec.translation_for L r) as [t|] eqn:Ht; simpl;
    first [exact IH | f_equal; exact IH].
Qed.

Lemma spec_lines_length (rs : list result) :
  length (Spec.recognized_lines L rs) = length (Spec.translated_lines L rs).
Proof.
  unfold Spec.recognized_lines, Spec.translated_lines.
  rewrite length_fmap.
  induction rs as [|r rs IH]; [reflexivity|].
  rewrite filter_cons. simpl.
  destruct (Spec.translation_for L r) as [t|] eqn:Ht; simpl;
    first [exact IH | f_equal; exact IH].
Qed.

End CollectorFacts.

(** The accumulators of the specification's own example: three events,
    the middle one without a usable translation. *)
Example collect_three :
  Collector.collect Sample.es [Sample.hola; Sample.blank; Sample.mundo] =
  {| Collector.translated_lines := [lit "Hola"; lit "Mundo"];
     Collector.recognized_lines := [lit "Hello"; lit "World"];
     Collector.done := false |}.
Proof. vm_compute. reflexivity. Qed.

Example collect_other_language :
  Collector.collect Sample.es
    [Sample.other_language; Sample.heard; Sample.no_match; Sample.hola] =
  {| Collector.translated_lines := [lit "Hola"];
     Collector.recognized_lines := [lit "Hello"];
     Collector.done := false |}.
Proof. vm_compute. reflexivity. Qed.

(** C1, as stated, at a recognized-but-untranslated event with empty
    text: the callback prints nothing at all, so it is not the case that
    it emits a diagnostic line. *)
Lemma silence_emits_nothing :
  Collector.handle_recognized Sample.es Sample.silence Collector.init =
    (Collector.init, []) /\
  ~ Spec.emits_diagnostic_only Sample.es Sample.silence Collector.init.
Proof.
  split; [reflexivity|].
  intros [l Hl]. vm_compute in Hl. discriminate Hl.
Qed.

(** C1, amended.  For every sequence of finalized events and every target
    language, [translated_lines] is the sequence of translations that are
    present and non-empty, in arrival order, and [recognized_lines] is the
    sequence of source texts of exactly those events.  An event without
    such a translation leaves both sequences alone; a
    recognized-but-untranslated event changes nothing and prints one
    diagnostic line when its text is non-empty, and nothing when it is
    empty; a no-match event does nothing. *)
Theorem collector_matches_spec (target_language : str) (rs : list result) :
  Collector.translated_lines (Collector.collect target_language rs) =
    Spec.translated_lines target_language rs /\
  Collector.recognized_lines (Collector.collect target_language rs) =
    Spec.recognized_lines target_language rs /\
  (forall r st, Spec.translation_for target_language r = None ->
     (Collector.handle_recognized target_language r st).1 = st) /\
  (forall r st, reason r = RecognizedSpeech ->
     Collector.handle_recognized target_language r st =
     (st, if truthy_opt (text r)
          then [LineSrcOnly (Spec.source_text r)] else [])) /\
  (forall r st, reason r = NoMatch ->
     Collector.handle_recognized target_language r st = (st, [])).
Proof.
  unfold Collector.collect.
  destruct (deliver_all_lines target_language (Recognized <$> rs) Collector.init)
    as [Ht Hr].
  rewrite finalized_recognized in Ht, Hr.
  repeat split.
  - exact Ht.
  - exact Hr.
  - intros r st Hnone. rewrite handle_recognized_cases.
    unfold Spec.segment. rewrite Hnone. reflexivity.
  - intros r st Hreason. rewrite handle_recognized_cases.
    unfold Spec.segment, Spec.translation_for. rewrite Hreason. reflexivity.
  - intros r st Hreason. rewrite handle_recognized_cases.
    unfold Spec.segment, Spec.translation_for. rewrite Hreason. reflexivity.
Qed.

Lemma collector_matches_spec_witness :
  Spec.translation_for Sample.es Sample.blank = None /\
  reason Sample.heard = RecognizedSpeech /\
  reason Sample.no_match = NoMatch /\
  Collector.translated_lines
    (Collector.collect Sample.es [Sample.hola; Sample.blank; Sample.mundo]) =
    [lit "Hola"; lit "Mundo"] /\
  (Collector.handle_recognized Sample.es Sample.blank Collector.init).1 =
    Collector.init /\
  Collector.handle_recognized Sample.es Sample.heard Collector.init =
    (Collector.init, [LineSrcOnly (lit "Hello")]) /\
  Collector.handle_recognized Sample.es Sample.no_match Collector.init =
    (Collector.init, []).
Proof.
  pose proof (collector_matches_spec Sample.es
                [Sample.hola; Sample.blank; Sample.mundo])
    as (Ht & _ & Hnone & Hrec & Hno).
  assert (Hb : Spec.translation_for Sample.es Sample.blank = None)
    by (vm_compute; reflexivity).
  split; [exact Hb|].
  split; [reflexivity|].
  split; [reflexivity|].
  split; [rewrite Ht; vm_compute; reflexivity|].
  split; [exact (Hnone Sample.blank Collector.init Hb)|].
  split; [exact (Hrec Sample.heard Collector.init eq_refl)|].
  exact (Hno Sample.no_match Collector.init eq_refl).
Defined.

(** C9.  After the first [n] events of any stream, whatever they are,
    the two accumulators have the same length, and zipped together they
    are the segments of the finalized events seen so far: the i-th
    recognized line and the i-th translated line come from one and the
    same event. *)
Theorem accumulators_stay_paired
  (target_language : str) (evs : list event) (n : nat) :
  let st := (Collector.deliver_all target_language (take n evs)
               Collector.init).1 in
  length (Collector.translated_lines st) =
    length (Collector.recognized_lines st) /\
  zip (Collector.recognized_lines st) (Collector.translated_lines st) =
    omap (Spec.segment target_language) (Spec.finalized (take n evs)) /\
  (forall i s t,
     Collector.recognized_lines st !! i = Some s ->
     Collector.translated_lines st !! i = Some t ->
     exists r, Recognized r ∈ take n evs /\
               Spec.source_text r = s /\
               Spec.translation_for target_language r = Some t).
Proof.
  intros st.
  destruct (deliver_all_lines target_language (take n evs) Collector.init)
    as [Ht Hr].
  fold st in Ht, Hr. simpl in Ht, Hr.
  assert (Hzip : zip (Collector.recognized_lines st)
                     (Collector.translated_lines st) =
                 omap (Spec.segment target_language)
                      (Spec.finalized (take n evs)))
    by (rewrite Ht, Hr; apply spec_lines_zip).
  split; [|split].
  - rewrite Ht, Hr. symmetry. apply spec_lines_length.
  - exact Hzip.
  - intros i s t Hs Htr.
    assert (Hin : (s, t) ∈ zip (Collector.recognized_lines st)
                               (Collector.translated_lines st)).
    { apply list_elem_of_lookup. exists i.
      apply lookup_zip_with_Some. eauto. }
    rewrite Hzip in Hin.
    apply list_elem_of_omap in Hin as (r & Hr_in & Hseg).
    apply list_elem_of_omap in Hr_in as (ev & Hev & Hfin).
    destruct ev; try discriminate. injection Hfin as ->.
    unfold Spec.segment in Hseg.
    destruct (Spec.translation_for target_language r) as [t'|] eqn:Htf;
      [|discriminate].
    injection Hseg as <- <-. eauto.
Qed.

Lemma accumulators_stay_paired_witness :
  exists r,
    Recognized r ∈ take 3 [Recognized Sample.hola; Recognized Sample.heard;
                           Recognized Sample.mundo; SessionStopped] /\
    Spec.source_text r = lit "World" /\
    Spec.translation_for Sample.es r = Some (lit "Mundo").
Proof.
  apply (accumulators_stay_paired Sample.es
           [Recognized Sample.hola; Recognized Sample.heard;
            Recognized Sample.mundo; SessionStopped] 3)
    with (i := 1%nat); vm_compute; reflexivity.
Defined.

(* ===================================================================== *)
(** ** Properties of the wait loop *)
(* ===================================================================== *)

Section DriverFacts.

Import Collector Driver.

Variable target_language : str.

Local Abbreviation L := target_language.

Lemma deliver_all_app (evs1 evs2 : list event) (st : state) :
  deliver_all L (evs1 ++ evs2) st =
  let '(st1, out1) := deliver_all L evs1 st in
  let '(st2, out2) := deliver_all L evs2 st1 in
  (st2, out1 ++ out2).
Proof.
  revert st. induction evs1 as [|ev evs1 IH]; intros st; simpl.
  - destruct (deliver_all L evs2 st); reflexivity.
  - destruct (dispatch L ev st) as [st1 out1].
    rewrite IH.
    destruct (deliver_all L evs1 st1) as [st2 out2].
    destruct (deliver_all L evs2 st2) as [st3 out3].
    rewrite app_assoc. reflexivity.
Qed.

(** [done] is set by the terminal callbacks and by nothing else. *)
Lemma dispatch_done (ev : event) (st : state) :
  done (dispatch L ev st).1 = done st || terminal ev.
Proof.
  destruct ev as [r|r|why d| |]; simpl; rewrite ?orb_false_r, ?orb_true_r;
    try reflexivity.
  rewrite handle_recognized_cases.
  destruct (Spec.segment L r); reflexivity.
Qed.

Lemma deliver_all_done (evs : list event) (st : state) :
  done (deliver_all L evs st).1 = done st || existsb terminal evs.
Proof.
  revert st. induction evs as [|ev evs IH]; intros st; simpl.
  - rewrite orb_false_r. reflexivity.
  - pose proof (dispatch_done ev st) as Hd.
    destruct (dispatch L ev st) as [st1 out1]. simpl in Hd.
    specialize (IH st1).
    destruct (deliver_all L evs st1) as [st2 out2]. simpl in *.
    rewrite IH, Hd, orb_assoc. reflexivity.
Qed.

Lemma wait_loop_done (fuel : nat) (sched : nat -> nat) (i : nat)
  (st : state) (pending : list event) :
  done st = true ->
  wait_loop L fuel sched i st pending = Some (st, [], pending).
Proof. intros Hd. destruct fuel; simpl; rewrite Hd; reflexivity. Qed.

Lemma take_plus {A : Type} (k d : nat) (l : list A) :
  take (k + d) l = take k l ++ take d (drop k l).
Proof.
  revert l. induction k as [|k IH]; intros l; [reflexivity|].
  destruct l as [|x l]; simpl.
  - rewrite take_nil. reflexivity.
  - rewrite IH. reflexivity.
Qed.

(** When the loop ends, the callbacks have run for some first part of
    the pending events, in order, and [done] is set. *)
Lemma wait_loop_result (sched : nat -> nat) (fuel : nat) :
  forall (i : nat) (st : state) (pending : list event) st' out pending',
  wait_loop L fuel sched i st pending = Some (st', out, pending') ->
  exists n, pending' = drop n pending /\
            deliver_all L (take n pending) st = (st', out) /\
            done st' = true.
Proof.
  induction fuel as [|fuel IH]; intros i st pending st' out pending' H;
    simpl in H; destruct (done st) eqn:Hd; try discriminate.
  - injection H as <- <- <-. exists 0%nat. rewrite take_0, drop_0. auto.
  - injection H as <- <- <-. exists 0%nat. rewrite take_0, drop_0. auto.
  - unfold deliver in H.
    destruct (deliver_all L (take (sched i) pending) st) as [st1 out1] eqn:H1.
    destruct (wait_loop L fuel sched (S i) st1 (drop (sched i) pending))
      as [[[st2 out2] pending2]|] eqn:H2; [|discriminate].
    injection H as <- <- <-.
    apply IH in H2 as (n & Hp & Hn & Hdone).
    exists (sched i + n)%nat. split; [|split].
    + rewrite Hp, drop_drop. reflexivity.
    + rewrite take_plus, deliver_all_app, H1, Hn. reflexivity.
    + exact Hdone.
Qed.

(** The loop ends once a terminal event has been handed over. *)
Lemma wait_loop_terminates (sched : nat -> nat) (T : nat) :
  forall (i : nat) (st : state) (pending : list event),
  existsb terminal (take (delivered sched i T) pending) = true ->
  forall fuel, (T <= fuel)%nat ->
  is_Some (wait_loop L fuel sched i st pending).
Proof.
  induction T as [|T IH]; intros i st pending Hex fuel Hfuel.
  - simpl in Hex. discriminate.
  - destruct fuel as [|fuel]; [lia|].
    simpl. destruct (done st) eqn:Hd; [eauto|].
    unfold deliver.
    destruct (deliver_all L (take (sched i) pending) st) as [st1 out1] eqn:H1.
    pose proof (deliver_all_done (take (sched i) pending) st) as Hd1.
    rewrite H1, Hd in Hd1. simpl in Hd1.
    destruct (done st1) eqn:Hdone1.
    + rewrite (wait_loop_done fuel sched (S i) st1 _ Hdone1). eauto.
    + simpl in Hex. rewrite take_plus, existsb_app, <- Hd1 in Hex.
      simpl in Hex.
      destruct (IH (S i) st1 (drop (sched i) pending) Hex fuel ltac:(lia))
        as [[[st2 out2] pending2] H2].
      rewrite H2. eauto.
Qed.

(** A stream that ends with its only terminal event: the loop hands over
    all of it, whatever the schedule, once the schedule has got that far. *)
Lemma wait_loop_whole_stream (sched : nat -> nat) (T fuel : nat)
  (pre : list event) (term : event) :
  existsb terminal pre = false ->
  terminal term = true ->
  (length (pre ++ [term]) <= delivered sched 0 T)%nat ->
  (T <= fuel)%nat ->
  wait_loop L fuel sched 0 init (pre ++ [term]) =
  Some ((deliver_all L (pre ++ [term]) init).1,
        (deliver_all L (pre ++ [term]) init).2, []).
Proof.
  intros Hpre Hterm Hlen Hfuel.
  destruct (wait_loop_terminates sched T 0 init (pre ++ [term])) with (fuel := fuel)
    as [[[st' out] pending'] Hw]; [|lia|].
  { rewrite take_ge by lia. rewrite existsb_app. simpl.
    rewrite Hterm, orb_true_r. reflexivity. }
  rewrite Hw.
  apply wait_loop_result in Hw as (n & Hp & Hn & Hdone).
  pose proof (deliver_all_done (take n (pre ++ [term])) init) as Hd.
  rewrite Hn in Hd. simpl in Hd. rewrite Hdone in Hd.
  destruct (decide (n <= length pre)%nat) as [Hle|Hgt].
  - rewrite take_app_le in Hd by lia.
    assert (Hsub : existsb terminal (take n pre) = false).
    { apply not_true_is_false. intros Hc.
      apply existsb_exists in Hc as (x & Hx & Htx).
      assert (Hin : In x pre).
      { apply list_elem_of_In. apply list_elem_of_In in Hx.
        eapply subseteq_take; eassumption. }
      assert (existsb terminal pre = true)
        by (apply existsb_exists; eauto).
      congruence. }
    congruence.
  - rewrite take_ge in Hn by (rewrite length_app; simpl; lia).
    rewrite drop_ge in Hp by (rewrite length_app; simpl; lia).
    rewrite Hn, Hp. reflexivity.
Qed.

End DriverFacts.

(* ===================================================================== *)
(** ** Properties of translate_wav *)
(* ===================================================================== *)

Section RunFacts.

Import Collector Driver Run.

(** *** Invariants of effects, compositionally *)

Lemma emits_bind {A B : Type} (P : effect -> Prop) (m : M A) (f : A -> M B) :
  emits P m -> (forall a, emits P (f a)) -> emits P (m ≫= f).
Proof.
  intros Hm Hf w Hw. unfold mbind, M_bind.
  specialize (Hm w Hw).
  destruct (m w) as [[a|e|] w1] eqn:Hmw; simpl in *; auto.
  apply Hf. exact Hm.
Qed.

Lemma emits_ret {A : Type} (P : effect -> Prop) (a : A) : emits P (mret a).
Proof. intros w Hw. exact Hw. Qed.

Lemma emits_raise {A : Type} (P : effect -> Prop) (e : exn) :
  emits P (@raise A e).
Proof. intros w Hw. exact Hw. Qed.

Lemma emits_hang {A : Type} (P : effect -> Prop) : emits P (@hang A).
Proof. intros w Hw. exact Hw. Qed.

Lemma emits_logs (P : effect -> Prop) (es : list effect) :
  Forall P es -> emits P (logs es).
Proof. intros Hes w Hw. simpl. apply Forall_app. auto. Qed.

Lemma emits_log (P : effect -> Prop) (e : effect) : P e -> emits P (log e).
Proof. intros He w Hw. simpl. apply Forall_app. auto. Qed.

Lemma keeps_files_bind {A B : Type} (m : M A) (f : A -> M B) :
  keeps_files m -> (forall a, keeps_files (f a)) -> keeps_files (m ≫= f).
Proof.
  intros Hm Hf w. unfold mbind, M_bind.
  specialize (Hm w).
  destruct (m w) as [[a|e|] w1] eqn:Hmw; simpl in *; auto.
  rewrite Hf. exact Hm.
Qed.

Lemma keeps_files_ret {A : Type} (a : A) : keeps_files (mret a : M A).
Proof. intros w. reflexivity. Qed.

Lemma keeps_files_log (e : effect) : keeps_files (log e).
Proof. intros w. reflexivity. Qed.

Lemma keeps_files_logs (es : list effect) : keeps_files (logs es).
Proof. intros w. reflexivity. Qed.

(** The recognizer [configure] builds, and the objects it constructs on
    the way, for either form of [source_language]. *)
Lemma configure_result
  (speech_key speech_region wav_path target_language : str)
  (source_language : option str) (w : world) :
  exists r es,
    configure speech_key speech_region wav_path target_language
      source_language w =
    (Returned r, {| fs := fs w; trace := trace w ++ es ++ [NewRecognizer r] |}) /\
    well_configured target_language source_language r /\
    Forall (fun e => constructs_session_object e = true /\
                     network_access e = false /\
                     writes_file e = false) es.
Proof.
  unfold configure, log, mbind, M_bind, mret, M_ret.
  destruct (truthy_opt source_language) eqn:Hsrc; cbn [fs trace].
  - eexists _, [_; _]. split; [|split].
    + rewrite <- !app_assoc. reflexivity.
    + split; [reflexivity|]. intros Hc. congruence.
    + repeat constructor.
  - eexists _, [_; _; _]. split; [|split].
    + rewrite <- !app_assoc. reflexivity.
    + split; [reflexivity|]. intros _.
      eexists. split; [reflexivity|]. discriminate.
    + repeat constructor.
Qed.

Lemma emits_configure (P : effect -> Prop)
  (speech_key speech_region wav_path target_language : str)
  (source_language : option str) :
  (forall e, constructs_session_object e = true ->
             configures_well target_language source_language e -> P e) ->
  emits P (configure speech_key speech_region wav_path target_language
             source_language).
Proof.
  intros HP w Hw.
  destruct (configure_result speech_key speech_region wav_path
              target_language source_language w)
    as (r & es & -> & Hr & Hes).
  cbn [snd trace]. rewrite !Forall_app. split; [exact Hw|]. split.
  - eapply Forall_impl; [exact Hes|]. intros e (Hobj & Hnet & _).
    apply HP; [exact Hobj|]. destruct e; try exact I. discriminate Hnet.
  - constructor; [|constructor]. apply HP; [reflexivity|exact Hr].
Qed.

Lemma keeps_files_configure
  (speech_key speech_region wav_path target_language : str)
  (source_language : option str) :
  keeps_files (configure speech_key speech_region wav_path target_language
                 source_language).
Proof.
  intros w.
  destruct (configure_result speech_key speech_region wav_path
              target_language source_language w)
    as (r & es & -> & _). reflexivity.
Qed.

(** *** The session *)

Lemma run_session_hangs (sdk : collaborator) (fuel : nat)
  (target_language : str) (w : world) :
  wait_loop target_language fuel (deliveries sdk) 0 init (stream sdk) = None ->
  run_session sdk fuel target_language w =
  (Hangs, {| fs := fs w; trace := trace w ++ session_prologue |}).
Proof.
  intros Hloop.
  unfold run_session, print, log, logs, hang, mbind, M_bind, mret, M_ret.
  cbn [fs trace]. rewrite Hloop, <- !app_assoc. reflexivity.
Qed.

Lemma run_session_returns (sdk : collaborator) (fuel : nat)
  (target_language : str) (w : world) st out pending :
  wait_loop target_language fuel (deliveries sdk) 0 init (stream sdk) =
    Some (st, out, pending) ->
  let late := deliver_all target_language (take (on_stop sdk) pending) st in
  run_session sdk fuel target_language w =
  (Returned late.1,
   {| fs := fs w;
      trace := trace w ++ session_prologue ++ (Print <$> out) ++
               [StopContinuousRecognition] ++ (Print <$> late.2) |}).
Proof.
  intros Hloop late. subst late.
  unfold run_session, print, log, logs, hang, mbind, M_bind, mret, M_ret.
  cbn [fs trace]. rewrite Hloop.
  destruct (deliver_all target_language (take (on_stop sdk) pending) st)
    as [st' out'].
  cbn [fs trace fst snd]. rewrite <- !app_assoc. reflexivity.
Qed.

Lemma Forall_prints (P : effect -> Prop) (out : list console_line) :
  (forall l, P (Print l)) -> Forall P (Print <$> out).
Proof. intros HP. apply Forall_fmap, Forall_forall. intros l _. apply HP. Qed.

Lemma emits_run_session (P : effect -> Prop) (sdk : collaborator)
  (fuel : nat) (target_language : str) :
  (forall e, constructs_session_object e = false ->
             writes_file e = false -> P e) ->
  emits P (run_session sdk fuel target_language).
Proof.
  intros HP w Hw.
  assert (Hpro : Forall P session_prologue)
    by (repeat constructor; apply HP; reflexivity).
  destruct (wait_loop target_language fuel (deliveries sdk) 0 init (stream sdk))
    as [[[st out] pending]|] eqn:Hloop.
  - rewrite (run_session_returns sdk fuel target_language w _ _ _ Hloop).
    cbn [snd trace]. rewrite !Forall_app.
    repeat split; try assumption.
    + apply Forall_prints. intros l. apply HP; reflexivity.
    + repeat constructor. apply HP; reflexivity.
    + apply Forall_prints. intros l. apply HP; reflexivity.
  - rewrite (run_session_hangs sdk fuel target_language w Hloop).
    cbn [snd trace]. rewrite Forall_app. auto.
Qed.

Lemma keeps_files_run_session (sdk : collaborator) (fuel : nat)
  (target_language : str) :
  keeps_files (run_session sdk fuel target_language).
Proof.
  intros w.
  destruct (wait_loop target_language fuel (deliveries sdk) 0 init (stream sdk))
    as [[[st out] pending]|] eqn:Hloop.
  - rewrite (run_session_returns sdk fuel target_language w _ _ _ Hloop).
    reflexivity.
  - rewrite (run_session_hangs sdk fuel target_language w Hloop). reflexivity.
Qed.

(** *** The output writer *)

Lemma write_output_skipped (h : host) (translated_lines : list str)
  (output_txt : option str) (w : world) :
  truthy_opt output_txt = false ->
  write_output h translated_lines output_txt w = (Returned tt, w).
Proof. intros Hout. unfold write_output. rewrite Hout. reflexivity. Qed.


(** Every way [write_output] can go when a path is given. *)
Lemma write_output_cases (h : host) (translated_lines : list str)
  (path : str) (w : world) :
  truthy path = true ->
  write_output h translated_lines (Some path) w =
  match fs w !! path with
  | Some Directory =>
      (Raised (IsADirectoryError path),
       {| fs := fs w; trace := trace w ++ [OpenWrite path] |})
  | _ =>
      match utf8_encode
              (translate_newlines (linesep h) (join LF translated_lines)) with
      | None =>
          (Raised UnicodeEncodeError,
           {| fs := <[path := RegularFile []]> (fs w);
              trace := trace w ++ [OpenWrite path] |})
      | Some data =>
          (Returned tt,
           {| fs := <[path := RegularFile data]> (fs w);
              trace := trace w ++
                       [OpenWrite path; FileWrite path data;
                        Print (LineSaved path)] |})
      end
  end.
Proof.
  intros Hpath.
  unfold write_output. cbn [truthy_opt]. rewrite Hpath.
  change (default [] (Some path)) with path.
  unfold open_w, write_text, print, log, mbind, M_bind.
  destruct (fs w !! path) as [[content|]|] eqn:Hlook; cbn [fs trace];
    try reflexivity;
    destruct (utf8_encode _) as [data|]; cbn [fs trace]; try reflexivity;
    unfold content_of; rewrite lookup_insert_eq, insert_insert_eq;
    cbn [app]; rewrite <- !app_assoc; reflexivity.
Qed.

(** Whether the writer raises, and the files it leaves, depend on the
    files it finds, not on the trace. *)
Lemma write_output_outcome (h : host) (translated_lines : list str)
  (output_txt : option str) (w : world) :
  (write_output h translated_lines output_txt w).1 =
    (write_output h translated_lines output_txt (fresh (fs w))).1 /\
  fs (write_output h translated_lines output_txt w).2 =
    fs (write_output h translated_lines output_txt (fresh (fs w))).2.
Proof.
  destruct (truthy_opt output_txt) eqn:Hout.
  - destruct output_txt as [path|]; [|discriminate].
    rewrite !write_output_cases by exact Hout. cbn [fresh fs].
    destruct (fs w !! path) as [[content|]|];
      try (split; reflexivity); destruct (utf8_encode _); split; reflexivity.
  - rewrite !write_output_skipped by exact Hout. split; reflexivity.
Qed.

Lemma write_output_extends (h : host) (translated_lines : list str)
  (output_txt : option str) (w : world) :
  exists es, trace (write_output h translated_lines output_txt w).2 =
             trace w ++ es.
Proof.
  destruct (truthy_opt output_txt) eqn:Hout.
  - destruct output_txt as [path|]; [|discriminate].
    rewrite write_output_cases by exact Hout.
    destruct (fs w !! path) as [[content|]|];
      try (eexists; reflexivity); destruct (utf8_encode _);
      eexists; reflexivity.
  - rewrite write_output_skipped by exact Hout.
    exists []. rewrite app_nil_r. reflexivity.
Qed.

(** *** The whole function *)

Lemma translate_wav_without_credentials (h : host) (sdk : collaborator)
  (fuel : nat) (wav_path target_language : str)
  (source_language output_txt : option str) (w : world) :
  truthy_opt (environ h !! KEY_VAR) = false \/
  truthy_opt (environ h !! REGION_VAR) = false ->
  translate_wav h sdk fuel wav_path target_language
    source_language output_txt w =
  (Raised (RuntimeError missing_credentials_message),
   {| fs := fs w; trace := trace w ++ [Getenv KEY_VAR; Getenv REGION_VAR] |}).
Proof.
  intros Hmissing.
  unfold translate_wav, getenv, log, mbind, M_bind, mret, M_ret, raise.
  cbn [fs trace].
  assert (Hcond : negb (truthy_opt (environ h !! KEY_VAR))
                  || negb (truthy_opt (environ h !! REGION_VAR)) = true).
  { destruct Hmissing as [-> | ->]; [reflexivity|].
    rewrite orb_true_r. reflexivity. }
  rewrite Hcond, <- app_assoc. reflexivity.
Qed.

Lemma translate_wav_not_found (h : host) (sdk : collaborator)
  (fuel : nat) (wav_path target_language : str)
  (source_language output_txt : option str) (w : world) :
  credentials_present h ->
  is_regular_file (fs w) wav_path = false ->
  translate_wav h sdk fuel wav_path target_language
    source_language output_txt w =
  (Raised (FileNotFoundError (not_found_message wav_path)),
   {| fs := fs w;
      trace := trace w ++
               [Getenv KEY_VAR; Getenv REGION_VAR; IsFile wav_path] |}).
Proof.
  intros [Hkey Hregion] Hfile.
  unfold translate_wav, getenv, isfile, log, mbind, M_bind, mret, M_ret, raise.
  cbn [fs trace]. rewrite Hkey, Hregion. cbn [negb orb fs trace].
  rewrite Hfile. cbn [negb]. rewrite <- !app_assoc. reflexivity.
Qed.

(** Past validation, the function is configuration, session and output
    writer in sequence. *)
Lemma translate_wav_validated (h : host) (sdk : collaborator)
  (fuel : nat) (wav_path target_language : str)
  (source_language output_txt : option str) (w : world) :
  credentials_present h ->
  is_regular_file (fs w) wav_path = true ->
  translate_wav h sdk fuel wav_path target_language
    source_language output_txt w =
  (configure (default [] (environ h !! KEY_VAR))
     (default [] (environ h !! REGION_VAR))
     wav_path target_language source_language ≫= fun _ =>
   run_session sdk fuel target_language ≫= fun st =>
   write_output h (translated_lines st) output_txt ≫= fun _ =>
   mret (translated_lines st, recognized_lines st))
  {| fs := fs w;
     trace := trace w ++ [Getenv KEY_VAR; Getenv REGION_VAR; IsFile wav_path] |}.
Proof.
  intros [Hkey Hregion] Hfile.
  unfold translate_wav, getenv, isfile, log, mbind, M_bind, mret, M_ret.
  cbn [fs trace]. rewrite Hkey, Hregion. cbn [negb orb fs trace].
  rewrite Hfile. cbn [negb]. rewrite <- !app_assoc. reflexivity.
Qed.

Lemma session_objects_write_nothing (e : effect) :
  constructs_session_object e = true -> writes_file e = false.
Proof. destruct e; simpl; congruence. Qed.

Lemma emits_getenv (P : effect -> Prop) (h : host) (name : str) :
  P (Getenv name) -> emits P (getenv h name).
Proof.
  intros HP. unfold getenv.
  apply emits_bind; [apply emits_log, HP|]. intros _. apply emits_ret.
Qed.

(** An invariant of the effects of [translate_wav], from what it needs of
    the pieces: it holds of every effect that writes no file and
    configures its recognizer well, and the output writer maintains it. *)
Lemma emits_translate_wav (P : effect -> Prop) (h : host)
  (sdk : collaborator) (fuel : nat) (wav_path target_language : str)
  (source_language output_txt : option str) :
  (forall e, writes_file e = false ->
             configures_well target_language source_language e -> P e) ->
  (forall lines, emits P (write_output h lines output_txt)) ->
  emits P (translate_wav h sdk fuel wav_path target_language
             source_language output_txt).
Proof.
  intros HP Hwrite. unfold translate_wav.
  apply emits_bind; [apply emits_getenv, HP; constructor|]. intros speech_key.
  apply emits_bind; [apply emits_getenv, HP; constructor|]. intros speech_region.
  destruct (negb (truthy_opt speech_key) || negb (truthy_opt speech_region));
    [apply emits_raise|].
  apply emits_bind.
  { intros w Hw. simpl. apply Forall_app. split; [exact Hw|].
    repeat constructor. apply HP; constructor. }
  intros found. destruct (negb found); [apply emits_raise|].
  apply emits_bind.
  { apply emits_configure. intros e Hobj Hwell.
    apply HP; [apply session_objects_write_nothing, Hobj|exact Hwell]. }
  intros _. apply emits_bind.
  { apply emits_run_session. intros e Hobj Hw.
    apply HP; [exact Hw|]. destruct e; try exact I. discriminate Hobj. }
  intros st. apply emits_bind; [apply Hwrite|].
  intros _. apply emits_ret.
Qed.

Lemma keeps_files_translate_wav (h : host) (sdk : collaborator)
  (fuel : nat) (wav_path target_language : str)
  (source_language output_txt : option str) :
  truthy_opt output_txt = false ->
  keeps_files (translate_wav h sdk fuel wav_path target_language
                 source_language output_txt).
Proof.
  intros Hout. unfold translate_wav, getenv.
  repeat (apply keeps_files_bind; [|intros ?]);
    try apply keeps_files_log; try apply keeps_files_ret.
  destruct (_ || _); [intros w; reflexivity|].
  apply keeps_files_bind; [intros w; reflexivity|]. intros found.
  destruct (negb found); [intros w; reflexivity|].
  apply keeps_files_bind; [apply keeps_files_configure|]. intros _.
  apply keeps_files_bind; [apply keeps_files_run_session|]. intros st.
  apply keeps_files_bind; [|intros _; apply keeps_files_ret].
  intros w. rewrite write_output_skipped by exact Hout. reflexivity.
Qed.

Lemma emits_write_output (P : effect -> Prop) (h : host)
  (lines : list str) (output_txt : option str) :
  (forall e, constructs_session_object e = false -> P e) ->
  emits P (write_output h lines output_txt).
Proof.
  intros HP w Hw.
  destruct (truthy_opt output_txt) eqn:Hout.
  - destruct output_txt as [path|]; [|discriminate].
    rewrite write_output_cases by exact Hout.
    destruct (fs w !! path) as [[content|]|];
      try destruct (utf8_encode _); cbn [snd trace];
      apply Forall_app; (split; [exact Hw|]);
      repeat constructor; apply HP; reflexivity.
  - rewrite write_output_skipped by exact Hout. exact Hw.
Qed.

(** A validated run whose loop is still spinning when the fuel is gone. *)
Lemma translate_wav_spins (h : host) (sdk : collaborator)
  (fuel : nat) (wav_path target_language : str)
  (source_language output_txt : option str) (files : gmap str node) :
  credentials_present h ->
  is_regular_file files wav_path = true ->
  wait_loop target_language fuel (deliveries sdk) 0 init (stream sdk) = None ->
  (translate_wav h sdk fuel wav_path target_language
     source_language output_txt (fresh files)).1 = Hangs.
Proof.
  intros Hcred Hfile Hloop.
  rewrite translate_wav_validated by assumption.
  unfold mbind, M_bind.
  destruct (configure_result (default [] (environ h !! KEY_VAR))
              (default [] (environ h !! REGION_VAR)) wav_path
              target_language source_language
              {| fs := fs (fresh files);
                 trace := trace (fresh files) ++
                   [Getenv KEY_VAR; Getenv REGION_VAR; IsFile wav_path] |})
    as (r & es & -> & _).
  rewrite (run_session_hangs sdk fuel target_language _ Hloop). reflexivity.
Qed.

(** A validated run whose loop ends: the bundle is what the callbacks
    have accumulated by the time the session has stopped, unless the
    output writer raises. *)
Lemma translate_wav_completes (h : host) (sdk : collaborator)
  (fuel : nat) (wav_path target_language : str)
  (source_language output_txt : option str) (files : gmap str node)
  st out pending :
  credentials_present h ->
  is_regular_file files wav_path = true ->
  wait_loop target_language fuel (deliveries sdk) 0 init (stream sdk) =
    Some (st, out, pending) ->
  let late := deliver_all target_language (take (on_stop sdk) pending) st in
  let bundle := (translated_lines late.1, recognized_lines late.1) in
  exists w_s,
    fs w_s = files /\
    (forall l, l ∈ out ++ late.2 -> Print l ∈ trace w_s) /\
    translate_wav h sdk fuel wav_path target_language
      source_language output_txt (fresh files) =
    (after_write (write_output h bundle.1 output_txt w_s).1 bundle,
     (write_output h bundle.1 output_txt w_s).2).
Proof.
  intros Hcred Hfile Hloop late bundle.
  rewrite translate_wav_validated by assumption.
  unfold mbind, M_bind.
  destruct (configure_result (default [] (environ h !! KEY_VAR))
              (default [] (environ h !! REGION_VAR)) wav_path
              target_language source_language
              {| fs := fs (fresh files);
                 trace := trace (fresh files) ++
                   [Getenv KEY_VAR; Getenv REGION_VAR; IsFile wav_path] |})
    as (r & es & -> & _).
  rewrite (run_session_returns sdk fuel target_language _ _ _ _ Hloop).
  fold late. cbn [fs trace fresh].
  eexists. split; [|split]; [| |
    destruct (write_output h (translated_lines late.1) output_txt _)
      as [[u|e|] w'] eqn:Hw; subst bundle; cbn [fst snd];
      rewrite Hw; reflexivity].
  - reflexivity.
  - intros l Hl. cbn [trace].
    apply elem_of_app in Hl as [Hl|Hl];
      rewrite !elem_of_app, !list_elem_of_fmap; eauto 10.
Qed.

Lemma finalized_before_terminal (pre : list event) (term : event) :
  terminal term = true ->
  Spec.finalized (pre ++ [term]) = Spec.finalized pre.
Proof.
  intros Hterm. unfold Spec.finalized. rewrite omap_app.
  destruct term; try discriminate; simpl; apply app_nil_r.
Qed.

(** A validated run over a stream that ends with its only terminal event,
    under a schedule that gets to the end of the stream. *)
Lemma translate_wav_whole_stream (h : host) (sdk : collaborator)
  (fuel T : nat) (wav_path target_language : str)
  (source_language output_txt : option str) (files : gmap str node)
  (pre : list event) (term : event) :
  credentials_present h ->
  is_regular_file files wav_path = true ->
  stream sdk = pre ++ [term] ->
  existsb terminal pre = false ->
  terminal term = true ->
  (length (stream sdk) <= delivered (deliveries sdk) 0 T)%nat ->
  (T <= fuel)%nat ->
  let bundle := (Spec.translated_lines target_language (Spec.finalized pre),
                 Spec.recognized_lines target_language (Spec.finalized pre)) in
  let written := write_output h bundle.1 output_txt (fresh files) in
  let r := translate_wav h sdk fuel wav_path target_language
             source_language output_txt (fresh files) in
  r.1 = after_write written.1 bundle /\
  fs r.2 = fs written.2 /\
  (forall l, l ∈ (deliver_all target_language (pre ++ [term]) init).2 ->
             Print l ∈ trace r.2).
Proof.
  intros Hcred Hfile Hstream Hpre Hterm Hlen Hfuel bundle written r.
  subst bundle written r. cbn [fst snd].
  rewrite Hstream in Hlen.
  pose proof (wait_loop_whole_stream target_language (deliveries sdk) T fuel
                pre term Hpre Hterm Hlen Hfuel) as Hloop.
  rewrite <- Hstream in Hloop.
  destruct (translate_wav_completes h sdk fuel wav_path target_language
              source_language output_txt files _ _ _ Hcred Hfile Hloop)
    as (w_s & Hfs & Hprints & Hrun).
  rewrite take_nil in Hrun, Hprints. cbn [deliver_all fst snd] in Hrun, Hprints.
  destruct (deliver_all_lines target_language (stream sdk) init) as [Ht Hr].
  cbn [init translated_lines recognized_lines app] in Ht, Hr.
  rewrite Hstream, finalized_before_terminal in Ht, Hr by exact Hterm.
  rewrite <- Hstream in Ht, Hr.
  rewrite Ht, Hr in Hrun.
  destruct (write_output_outcome h
              (Spec.translated_lines target_language (Spec.finalized pre))
              output_txt w_s) as [Ho Hf].
  rewrite Hfs in Ho, Hf.
  rewrite Hrun. cbn [fst snd].
  split; [rewrite Ho; reflexivity|]. split; [exact Hf|].
  intros l Hl.
  destruct (write_output_extends h
              (Spec.translated_lines target_language (Spec.finalized pre))
              output_txt w_s) as [es ->].
  apply elem_of_app. left. apply Hprints.
  rewrite app_nil_r, Hstream. exact Hl.
Qed.

(** A stream without a terminal event keeps the loop spinning for ever. *)
Lemma wait_loop_spins (target_language : str) (sched : nat -> nat)
  (fuel : nat) :
  forall (i : nat) (st : state) (pending : list event),
  done st = false ->
  existsb terminal pending = false ->
  wait_loop target_language fuel sched i st pending = None.
Proof.
  induction fuel as [|fuel IH]; intros i st pending Hd Hpending;
    simpl; rewrite Hd; [reflexivity|].
  unfold deliver.
  pose proof (deliver_all_done target_language (take (sched i) pending) st)
    as Hd1.
  destruct (deliver_all target_language (take (sched i) pending) st)
    as [st1 out1].
  cbn [fst] in Hd1.
  rewrite <- (take_drop (sched i) pending), existsb_app in Hpending.
  apply orb_false_elim in Hpending as [Htake Hdrop].
  rewrite Hd, Htake in Hd1.
  rewrite (IH (S i) st1 _ Hd1 Hdrop). reflexivity.
Qed.

End RunFacts.

(* ===================================================================== *)
(** ** Input validation *)
(* ===================================================================== *)

(** The message of the configuration error names both settings. *)
Lemma message_names_both_settings :
  contains Run.missing_credentials_message Run.KEY_VAR = true /\
  contains Run.missing_credentials_message Run.REGION_VAR = true.
Proof. split; vm_compute; reflexivity. Qed.

(** C2.  When the key or the region is absent from the environment or
    empty, [translate_wav] raises the configuration error; by then it has
    read the two environment variables and touched neither a file nor the
    network, the files are as they were, and the message contains the
    name of every setting that is missing. *)
Theorem missing_credentials_fail_first (h : Run.host)
  (sdk : Driver.collaborator) (fuel : nat) (wav_path target_language : str)
  (source_language output_txt : option str) (files : gmap str Run.node) :
  truthy_opt (Run.environ h !! Run.KEY_VAR) = false \/
  truthy_opt (Run.environ h !! Run.REGION_VAR) = false ->
  let r := Run.translate_wav h sdk fuel wav_path target_language
             source_language output_txt (Run.fresh files) in
  (exists msg,
     r.1 = Run.Raised (Run.RuntimeError msg) /\
     (truthy_opt (Run.environ h !! Run.KEY_VAR) = false ->
      contains msg Run.KEY_VAR = true) /\
     (truthy_opt (Run.environ h !! Run.REGION_VAR) = false ->
      contains msg Run.REGION_VAR = true)) /\
  Run.fs r.2 = files /\
  Run.trace r.2 = [Run.Getenv Run.KEY_VAR; Run.Getenv Run.REGION_VAR] /\
  Forall (fun e => Run.file_access e = false /\ Run.network_access e = false)
    (Run.trace r.2).
Proof.
  intros Hmissing r. subst r.
  rewrite translate_wav_without_credentials by exact Hmissing.
  cbn [fst snd Run.fs Run.trace Run.fresh app].
  split; [|split; [reflexivity|split; [reflexivity|]]].
  - exists Run.missing_credentials_message.
    destruct message_names_both_settings as [Hk Hr]. auto.
  - repeat constructor.
Qed.

Lemma missing_credentials_fail_first_witness :
  (exists msg,
     (Run.translate_wav Sample.key_only Sample.clean_session 4
        Sample.talk_wav Sample.es None (Some Sample.out_txt)
        (Run.fresh Sample.files)).1 = Run.Raised (Run.RuntimeError msg) /\
     contains msg Run.REGION_VAR = true) /\
  Run.trace
    (Run.translate_wav Sample.no_credentials Sample.clean_session 4
       Sample.talk_wav Sample.es None (Some Sample.out_txt)
       (Run.fresh Sample.files)).2 =
    [Run.Getenv Run.KEY_VAR; Run.Getenv Run.REGION_VAR] /\
  Run.fs
    (Run.translate_wav Sample.region_only Sample.clean_session 4
       Sample.talk_wav Sample.es None (Some Sample.out_txt)
       (Run.fresh Sample.files)).2 = Sample.files /\
  Run.fs
    (Run.translate_wav Sample.empty_key Sample.clean_session 4
       Sample.talk_wav Sample.es None (Some Sample.out_txt)
       (Run.fresh Sample.files)).2 = Sample.files.
Proof.
  split; [|split; [|split]].
  - destruct (missing_credentials_fail_first Sample.key_only
                Sample.clean_session 4 Sample.talk_wav Sample.es None
                (Some Sample.out_txt) Sample.files)
      as [(msg & Hmsg & _ & Hregion) _]; [right; vm_compute; reflexivity|].
    exists msg. split; [exact Hmsg|].
    apply Hregion. vm_compute. reflexivity.
  - apply (missing_credentials_fail_first Sample.no_credentials
             Sample.clean_session 4 Sample.talk_wav Sample.es None
             (Some Sample.out_txt) Sample.files).
    left. vm_compute. reflexivity.
  - apply (missing_credentials_fail_first Sample.region_only
             Sample.clean_session 4 Sample.talk_wav Sample.es None
             (Some Sample.out_txt) Sample.files).
    left. vm_compute. reflexivity.
  - apply (missing_credentials_fail_first Sample.empty_key
             Sample.clean_session 4 Sample.talk_wav Sample.es None
             (Some Sample.out_txt) Sample.files).
    left. vm_compute. reflexivity.
Defined.

(** C3.  With both credentials present, a path that is not an existing
    regular file makes [translate_wav] raise the not-found error, and up
    to that point no object of the session configuration has been
    constructed: the trace holds the two environment reads and the file
    test, nothing else. *)
Theorem missing_file_fails_before_configuration (h : Run.host)
  (sdk : Driver.collaborator) (fuel : nat) (wav_path target_language : str)
  (source_language output_txt : option str) (files : gmap str Run.node) :
  Run.credentials_present h ->
  Run.is_regular_file files wav_path = false ->
  let r := Run.translate_wav h sdk fuel wav_path target_language
             source_language output_txt (Run.fresh files) in
  r.1 = Run.Raised (Run.FileNotFoundError (Run.not_found_message wav_path)) /\
  Run.fs r.2 = files /\
  Run.trace r.2 =
    [Run.Getenv Run.KEY_VAR; Run.Getenv Run.REGION_VAR; Run.IsFile wav_path] /\
  Forall (fun e => Run.constructs_session_object e = false) (Run.trace r.2).
Proof.
  intros Hcred Hfile r. subst r.
  rewrite translate_wav_not_found by assumption.
  cbn [fst snd Run.fs Run.trace Run.fresh app].
  repeat split; repeat constructor.
Qed.

Lemma missing_file_fails_before_configuration_witness :
  (Run.translate_wav Sample.posix Sample.clean_session 4
     (lit "absent.wav") Sample.es None None (Run.fresh Sample.files)).1 =
    Run.Raised (Run.FileNotFoundError (lit "WAV file not found: absent.wav")) /\
  (Run.translate_wav Sample.posix Sample.clean_session 4
     Sample.a_directory Sample.es None None (Run.fresh Sample.files)).1 =
    Run.Raised (Run.FileNotFoundError (lit "WAV file not found: recordings")).
Proof.
  split.
  - apply (missing_file_fails_before_configuration Sample.posix
             Sample.clean_session 4 (lit "absent.wav") Sample.es None None
             Sample.files).
    + split; vm_compute; reflexivity.
    + vm_compute. reflexivity.
  - apply (missing_file_fails_before_configuration Sample.posix
             Sample.clean_session 4 Sample.a_directory Sample.es None None
             Sample.files).
    + split; vm_compute; reflexivity.
    + vm_compute. reflexivity.
Defined.

(* ===================================================================== *)
(** ** The output writer *)
(* ===================================================================== *)

(** The specification's example, down to the bytes. *)
Example hola_mundo_bytes :
  join LF [lit "Hola"; lit "Mundo"] = lit "Hola" ++ [10] ++ lit "Mundo" /\
  utf8_encode (join LF [lit "Hola"; lit "Mundo"]) =
    Some [Byte.x48; Byte.x6f; Byte.x6c; Byte.x61; Byte.x0a;
          Byte.x4d; Byte.x75; Byte.x6e; Byte.x64; Byte.x6f].
Proof. split; vm_compute; reflexivity. Qed.

(** The codec on code points of two, three and four bytes, and on a
    surrogate. *)
Example utf8_samples :
  utf8_encode [241] = Some [Byte.xc3; Byte.xb1] /\
  utf8_encode [2344] = Some [Byte.xe0; Byte.xa4; Byte.xa8] /\
  utf8_encode [128512] = Some [Byte.xf0; Byte.x9f; Byte.x98; Byte.x80] /\
  utf8_encode [55296] = None.
Proof. repeat split; vm_compute; reflexivity. Qed.



(** C5.  Without an output path the output writer returns at once and
    the world is as it was; over the whole function, whatever the other
    inputs and however the run ends, the files are those it started with
    and no effect opens or writes a file. *)
Theorem no_output_path_no_file_written (h : Run.host)
  (sdk : Driver.collaborator) (fuel : nat) (wav_path target_language : str)
  (source_language : option str) (files : gmap str Run.node)
  (lines : list str) (w : Run.world) :
  Run.write_output h lines None w = (Run.Returned tt, w) /\
  let r := Run.translate_wav h sdk fuel wav_path target_language
             source_language None (Run.fresh files) in
  Run.fs r.2 = files /\
  Forall (fun e => Run.writes_file e = false) (Run.trace r.2).
Proof.
  split; [reflexivity|]. intros r. subst r. split.
  - apply (keeps_files_translate_wav h sdk fuel wav_path target_language
             source_language None eq_refl (Run.fresh files)).
  - apply (emits_translate_wav (fun e => Run.writes_file e = false)).
    + intros e He _. exact He.
    + intros lines' w' Hw'. exact Hw'.
    + constructor.
Qed.

(* ===================================================================== *)
(** ** The session configuration *)
(* ===================================================================== *)

(** C6.  Whatever its arguments, [configure] returns a recognizer whose
    configuration has exactly one target language, the requested one,
    and which, when no source language is given, carries a non-empty
    list of candidate languages (the fixed default list); every
    recognizer [translate_wav] constructs is of this kind, and a run that
    passes validation constructs one. *)
Theorem session_has_one_target (h : Run.host)
  (sdk : Driver.collaborator) (fuel : nat)
  (speech_key speech_region wav_path target_language : str)
  (source_language output_txt : option str) (files : gmap str Run.node)
  (w : Run.world) :
  (exists r,
     (Run.configure speech_key speech_region wav_path target_language
        source_language w).1 = Run.Returned r /\
     Run.target_languages (Run.translation_config r) = [target_language] /\
     (truthy_opt source_language = false ->
      Run.auto_detect_source_language_config r =
        Some {| Run.languages := Run.default_languages |} /\
      Run.default_languages <> [])) /\
  let t := Run.trace (Run.translate_wav h sdk fuel wav_path target_language
                        source_language output_txt (Run.fresh files)).2 in
  Forall (Run.configures_well target_language source_language) t /\
  (Run.credentials_present h ->
   Run.is_regular_file files wav_path = true ->
   exists r, Run.NewRecognizer r ∈ t).
Proof.
  split; [|split].
  - unfold Run.configure, Run.log, mbind, Run.M_bind, mret, Run.M_ret.
    destruct (truthy_opt source_language) eqn:Hsrc; cbn [fst];
      eexists; (split; [reflexivity|]); (split; [reflexivity|]);
      intros Hc; try congruence.
    split; [reflexivity|discriminate].
  - apply (emits_translate_wav
             (Run.configures_well target_language source_language)).
    + intros e _ He. exact He.
    + intros lines. apply emits_write_output.
      intros e He. destruct e; try exact I. discriminate He.
    + constructor.
  - intros Hcred Hfile.
    rewrite translate_wav_validated by assumption.
    unfold mbind, Run.M_bind.
    destruct (configure_result (default [] (Run.environ h !! Run.KEY_VAR))
                (default [] (Run.environ h !! Run.REGION_VAR)) wav_path
                target_language source_language
                {| Run.fs := Run.fs (Run.fresh files);
                   Run.trace := Run.trace (Run.fresh files) ++
                     [Run.Getenv Run.KEY_VAR; Run.Getenv Run.REGION_VAR;
                      Run.IsFile wav_path] |})
      as (r & es & -> & _).
    exists r.
    destruct (Driver.wait_loop target_language fuel (Driver.deliveries sdk)
                0 Collector.init (Driver.stream sdk))
      as [[[st out] pending]|] eqn:Hloop.
    + rewrite (run_session_returns sdk fuel target_language _ _ _ _ Hloop).
      match goal with
      | |- context [Run.write_output ?a ?b ?c ?d] =>
          destruct (write_output_extends a b c d) as [es2 Hes2];
          destruct (Run.write_output a b c d) as [[u|e|] w2]
      end;
        cbn [snd Run.trace mret Run.M_ret] in *; rewrite Hes2;
        rewrite !elem_of_app, list_elem_of_singleton; auto 10.
    + rewrite (run_session_hangs sdk fuel target_language _ Hloop).
      cbn [snd Run.trace].
      rewrite !elem_of_app, list_elem_of_singleton. auto 10.
Qed.

Lemma session_has_one_target_witness :
  exists r,
    Run.NewRecognizer r ∈
      Run.trace (Run.translate_wav Sample.posix Sample.clean_session 4
                   Sample.talk_wav Sample.es None None
                   (Run.fresh Sample.files)).2.
Proof.
  apply (session_has_one_target Sample.posix Sample.clean_session 4
           [] [] Sample.talk_wav Sample.es None None Sample.files
           (Run.fresh Sample.files)).
  - split; vm_compute; reflexivity.
  - vm_compute. reflexivity.
Defined.

(* ===================================================================== *)
(** ** The session driver *)
(* ===================================================================== *)

(** A whole run, by evaluation: two utterances, a clean stop, an output
    file that exists already. *)
Example sample_run :
  let r := Run.translate_wav Sample.posix Sample.clean_session 4
             Sample.talk_wav Sample.es None (Some Sample.out_txt)
             (Run.fresh Sample.files) in
  r.1 = Run.Returned ([lit "Hola"; lit "Mundo"], [lit "Hello"; lit "World"]) /\
  Run.fs r.2 !! Sample.out_txt =
    Some (Run.RegularFile
            [Byte.x48; Byte.x6f; Byte.x6c; Byte.x61; Byte.x0a;
             Byte.x4d; Byte.x75; Byte.x6e; Byte.x64; Byte.x6f]) /\
  Run.fs r.2 !! Sample.talk_wav = Sample.files !! Sample.talk_wav.
Proof. repeat split; vm_compute; reflexivity. Qed.

(** With one event per round, two rounds are not enough for three
    events. *)
Example sample_run_needs_fuel :
  (Run.translate_wav Sample.posix Sample.clean_session 2
     Sample.talk_wav Sample.es None None (Run.fresh Sample.files)).1 =
  Run.Hangs.
Proof. vm_compute. reflexivity. Qed.

(** A session that never reports its end hangs the function, whatever
    the fuel. *)
Lemma silent_session_hangs (fuel : nat) :
  (Run.translate_wav Sample.posix Sample.silent_session fuel
     Sample.talk_wav Sample.es None None (Run.fresh Sample.files)).1 =
  Run.Hangs.
Proof.
  apply translate_wav_spins.
  - split; vm_compute; reflexivity.
  - vm_compute. reflexivity.
  - apply wait_loop_spins; reflexivity.
Qed.

Lemma all_translated_lines (target_language : str) (rs : list result) :
  Forall (fun r => is_Some (Spec.translation_for target_language r)) rs ->
  Forall2 (fun r t => Spec.translation_for target_language r = Some t)
    rs (Spec.translated_lines target_language rs) /\
  Spec.recognized_lines target_language rs = Spec.source_text <$> rs.
Proof.
  unfold Spec.translated_lines, Spec.recognized_lines.
  induction 1 as [|r rs [t Ht] _ [IHt IHr]]; [split; constructor|].
  rewrite filter_cons, decide_True by (rewrite Ht; eauto).
  cbn [omap list_omap]. rewrite Ht. split.
  - constructor; [exact Ht|exact IHt].
  - rewrite fmap_cons, IHr. reflexivity.
Qed.

Lemma recognized_not_terminal (rs : list result) :
  existsb Driver.terminal (Recognized <$> rs) = false.
Proof. induction rs as [|r rs IH]; [reflexivity|exact IH]. Qed.

(** C7.  Take a run that passes validation, a stream of N finalized
    events each carrying a translation for the target language followed
    by one cancellation or session-stopped event, and a collaborator that
    gets to the end of that stream within T rounds of the wait loop.
    With T rounds of fuel or more the loop ends, whatever the schedule:
    the function does not hang, its bundle holds exactly the N
    translations and the N source texts in stream order, and it returns
    that bundle unless the output writer raises. *)
Theorem session_ends_with_all_segments (h : Run.host)
  (sdk : Driver.collaborator) (fuel T : nat)
  (wav_path target_language : str)
  (source_language output_txt : option str) (files : gmap str Run.node)
  (rs : list result) (term : event) :
  Run.credentials_present h ->
  Run.is_regular_file files wav_path = true ->
  Driver.stream sdk = (Recognized <$> rs) ++ [term] ->
  Driver.terminal term = true ->
  Forall (fun r => is_Some (Spec.translation_for target_language r)) rs ->
  (length (Driver.stream sdk) <=
     Driver.delivered (Driver.deliveries sdk) 0 T)%nat ->
  (T <= fuel)%nat ->
  let r := Run.translate_wav h sdk fuel wav_path target_language
             source_language output_txt (Run.fresh files) in
  exists translated recognized,
    Forall2 (fun r t => Spec.translation_for target_language r = Some t)
      rs translated /\
    recognized = Spec.source_text <$> rs /\
    length translated = length rs /\
    length recognized = length rs /\
    r.1 = Run.after_write
            (Run.write_output h translated output_txt (Run.fresh files)).1
            (translated, recognized) /\
    r.1 <> Run.Hangs /\
    (truthy_opt output_txt = false ->
     r.1 = Run.Returned (translated, recognized)).
Proof.
  intros Hcred Hfile Hstream Hterm Hall Hlen Hfuel r. subst r.
  destruct (translate_wav_whole_stream h sdk fuel T wav_path target_language
              source_language output_txt files (Recognized <$> rs) term
              Hcred Hfile Hstream (recognized_not_terminal rs) Hterm Hlen Hfuel)
    as (Hout & _ & _).
  rewrite finalized_recognized in Hout. cbn [fst] in Hout.
  destruct (all_translated_lines target_language rs Hall) as [Ht Hr].
  exists (Spec.translated_lines target_language rs),
         (Spec.recognized_lines target_language rs).
  split; [exact Ht|]. split; [exact Hr|].
  split; [symmetry; eapply Forall2_length; exact Ht|].
  split; [rewrite Hr; apply length_fmap|].
  split; [exact Hout|]. split.
  - rewrite Hout.
    destruct (truthy_opt output_txt) eqn:Hpath.
    + destruct output_txt as [path|]; [|discriminate].
      rewrite write_output_cases by exact Hpath.
      destruct (Run.fs (Run.fresh files) !! path) as [[content|]|];
        try destruct (utf8_encode _); discriminate.
    + rewrite write_output_skipped by exact Hpath. discriminate.
  - intros Hpath. rewrite Hout, write_output_skipped by exact Hpath.
    reflexivity.
Qed.

Lemma session_ends_with_all_segments_witness :
  exists translated recognized,
    Forall2 (fun r t => Spec.translation_for Sample.es r = Some t)
      [Sample.hola; Sample.mundo] translated /\
    recognized = Spec.source_text <$> [Sample.hola; Sample.mundo] /\
    (Run.translate_wav Sample.posix Sample.clean_session 4
       Sample.talk_wav Sample.es None None (Run.fresh Sample.files)).1 =
    Run.Returned (translated, recognized).
Proof.
  destruct (session_ends_with_all_segments Sample.posix Sample.clean_session
              4 3 Sample.talk_wav Sample.es None None Sample.files
              [Sample.hola; Sample.mundo] SessionStopped)
    as (translated & recognized & Ht & Hr & _ & _ & _ & _ & Hreturns).
  - split; vm_compute; reflexivity.
  - vm_compute. reflexivity.
  - reflexivity.
  - reflexivity.
  - repeat constructor; vm_compute; eauto.
  - vm_compute. lia.
  - lia.
  - exists translated, recognized.
    split; [exact Ht|]. split; [exact Hr|]. exact (Hreturns eq_refl).
Defined.

(** C8.  Take a run that passes validation and a stream that ends with
    its only terminal event, a cancellation whose reason is an error,
    under a collaborator that gets to the end of the stream.  The
    function prints the cancellation and the error details and ends its
    loop; its outcome and the files it leaves are those of the same run
    with a clean session-stopped event in place of the cancellation: the
    bundle of what was collected before, returned as a value, and no
    exception on account of the cancellation. *)
Theorem error_cancellation_returns_normally (h : Run.host)
  (sdk : Driver.collaborator) (fuel T : nat)
  (wav_path target_language : str)
  (source_language output_txt : option str) (files : gmap str Run.node)
  (pre : list event) (error_details : str) :
  Run.credentials_present h ->
  Run.is_regular_file files wav_path = true ->
  Driver.stream sdk = pre ++ [Canceled Error error_details] ->
  existsb Driver.terminal pre = false ->
  (length (Driver.stream sdk) <=
     Driver.delivered (Driver.deliveries sdk) 0 T)%nat ->
  (T <= fuel)%nat ->
  let bundle :=
    (Spec.translated_lines target_language (Spec.finalized pre),
     Spec.recognized_lines target_language (Spec.finalized pre)) in
  let r := Run.translate_wav h sdk fuel wav_path target_language
             source_language output_txt (Run.fresh files) in
  let clean :=
    Run.translate_wav h (Run.with_stream sdk (pre ++ [SessionStopped]))
      fuel wav_path target_language source_language output_txt
      (Run.fresh files) in
  r.1 = Run.after_write
          (Run.write_output h bundle.1 output_txt (Run.fresh files)).1
          bundle /\
  (truthy_opt output_txt = false -> r.1 = Run.Returned bundle) /\
  r.1 = clean.1 /\
  Run.fs r.2 = Run.fs clean.2 /\
  Run.Print (LineCanceled Error) ∈ Run.trace r.2 /\
  Run.Print (LineErrorDetails error_details) ∈ Run.trace r.2.
Proof.
  intros Hcred Hfile Hstream Hpre Hlen Hfuel bundle r clean.
  destruct (translate_wav_whole_stream h sdk fuel T wav_path target_language
              source_language output_txt files pre
              (Canceled Error error_details)
              Hcred Hfile Hstream Hpre eq_refl Hlen Hfuel)
    as (Hout & Hfs & Hprints).
  assert (Hlen' : (length (Driver.stream
                             (Run.with_stream sdk (pre ++ [SessionStopped]))) <=
                   Driver.delivered
                     (Driver.deliveries
                        (Run.with_stream sdk (pre ++ [SessionStopped]))) 0 T)%nat).
  { cbn [Run.with_stream Driver.stream Driver.deliveries].
    rewrite Hstream in Hlen. rewrite length_app in *. exact Hlen. }
  destruct (translate_wav_whole_stream h
              (Run.with_stream sdk (pre ++ [SessionStopped])) fuel T
              wav_path target_language source_language output_txt files pre
              SessionStopped Hcred Hfile eq_refl Hpre eq_refl Hlen' Hfuel)
    as (Hout' & Hfs' & _).
  fold bundle in Hout, Hfs, Hout', Hfs'. fold r in Hout, Hfs, Hprints.
  fold clean in Hout', Hfs'.
  split; [exact Hout|]. split; [|split; [|split; [|split]]].
  - intros Hpath. rewrite Hout, write_output_skipped by exact Hpath.
    reflexivity.
  - rewrite Hout, Hout'. reflexivity.
  - rewrite Hfs, Hfs'. reflexivity.
  - apply Hprints. rewrite deliver_all_app.
    destruct (Collector.deliver_all target_language pre Collector.init)
      as [st1 out1].
    cbn. rewrite decide_True by reflexivity.
    rewrite app_nil_r, elem_of_app, !elem_of_cons. naive_solver.
  - apply Hprints. rewrite deliver_all_app.
    destruct (Collector.deliver_all target_language pre Collector.init)
      as [st1 out1].
    cbn. rewrite decide_True by reflexivity.
    rewrite app_nil_r, elem_of_app, !elem_of_cons. naive_solver.
Qed.

Lemma error_cancellation_returns_normally_witness :
  (Run.translate_wav Sample.posix Sample.failed_session 3
     Sample.talk_wav Sample.es None None (Run.fresh Sample.files)).1 =
    Run.Returned ([lit "Hola"], [lit "Hello"]) /\
  Run.Print (LineErrorDetails (lit "connection lost")) ∈
    Run.trace
      (Run.translate_wav Sample.posix Sample.failed_session 3
         Sample.talk_wav Sample.es None None (Run.fresh Sample.files)).2.
Proof.
  destruct (error_cancellation_returns_normally Sample.posix
              Sample.failed_session 3 2 Sample.talk_wav Sample.es None None
              Sample.files [Recognized Sample.hola] (lit "connection lost"))
    as (_ & Hreturns & _ & _ & _ & Hdetails).
  - split; vm_compute; reflexivity.
  - vm_compute. reflexivity.
  - reflexivity.
  - reflexivity.
  - vm_compute. lia.
  - lia.
  - split; [|exact Hdetails].
    rewrite (Hreturns eq_refl). vm_compute. reflexivity.
Defined.

(* ===================================================================== *)
(** ** The entry point *)
(* ===================================================================== *)

Section ScriptFacts.

Import Script.

Local Open Scope string_scope.

Lemma name_unbound_at_guard (file : string) :
  globals (frame_at_guard file) !! "name" = None /\
  globals (frame_at_guard file) !! "main" = Some (VFunction "main") /\
  globals (frame_at_guard file) !! "__name__" = Some (VStr "__main__") /\
  calls (frame_at_guard file) = [].
Proof.
  unfold frame_at_guard, bind, script_frame. cbn [globals calls].
  repeat split; simplify_map_eq; reflexivity.
Qed.

(** The guard as written, in a frame that does not bind [name]. *)
Lemma entry_guard_unbound (py : interpreter) (f : frame) :
  globals f !! "name" = None ->
  "name" ∉ builtins py ->
  exec py entry_guard f = (Some (NameError "name"), f).
Proof.
  intros Hglobal Hbuiltin.
  unfold entry_guard, exec, eval, lookup_name.
  rewrite Hglobal, decide_False by exact Hbuiltin. reflexivity.
Qed.

(** The script either stops before the guard and before any call, at a
    failed import or at a [def] whose annotations do not evaluate, or
    reaches the guard in the frame the imports and [def]s have built. *)
Lemma top_level_cases (py : interpreter) (file : string) (guard : stmt) :
  (exists err f,
     exec_block py (top_level guard) (script_frame file) = (Some err, f) /\
     calls f = [] /\
     ((exists m, err = ImportError m /\ importable py m = false) \/
      (err = TypeError /\ union_types py = false))) \/
  exec_block py (top_level guard) (script_frame file) =
  match exec py guard (frame_at_guard file) with
  | (None, f) => (None, f)
  | (Some err, f) => (Some err, f)
  end.
Proof.
  unfold top_level. cbn [exec_block exec].
  destruct (importable py "os") eqn:H1; [|left; eauto 10].
  destruct (importable py "sys") eqn:H2; [|left; eauto 10].
  destruct (importable py "argparse") eqn:H3; [|left; eauto 10].
  destruct (importable py "azure.cognitiveservices.speech") eqn:H4;
    [|left; eauto 10].
  destruct (importable py "datetime") eqn:H5; [|left; eauto 10].
  destruct (union_types py) eqn:H6; cbn [andb negb]; [|left; eauto 10].
  right. reflexivity.
Qed.

End ScriptFacts.

(** With the conventional guard the same file does call [main]. *)
Example conventional_guard_calls_main :
  Script.exec_block Sample.python (Script.top_level Script.conventional_guard)
    (Script.script_frame "translate_wav.py") =
  (None,
   {| Script.globals := Script.globals (Script.frame_at_guard "translate_wav.py");
      Script.calls := ["main"%string] |}).
Proof. vm_compute. reflexivity. Qed.

(** Without the SDK installed the script stops at the fourth import. *)
Example script_without_sdk :
  (Script.run_script Sample.python_without_sdk "translate_wav.py").1 =
  Some (Script.ImportError "azure.cognitiveservices.speech").
Proof. vm_compute. reflexivity. Qed.

(** On an interpreter older than 3.10 the script stops at the first [def]. *)
Example script_on_python_3_9 :
  (Script.run_script Sample.python_3_9 "translate_wav.py").1 =
  Some Script.TypeError.
Proof. vm_compute. reflexivity. Qed.

(** C10.  Run as a script under an interpreter whose builtins do not
    define [name], the file never calls [main]: its guard, evaluated in
    any frame that does not bind [name], raises the unbound-name error
    for [name]; when the imports and the [def]s succeed that is how the
    script ends, in the frame they have built, and otherwise it ends
    earlier with their error.  Either way it ends with an exception and
    no call. *)
Theorem entry_guard_never_reaches_main (py : Script.interpreter)
  (file : string) :
  ("name" : string) ∉ Script.builtins py ->
  let r := Script.run_script py file in
  (forall f, Script.globals f !! ("name" : string) = None ->
     Script.exec py Script.entry_guard f =
       (Some (Script.NameError "name"), f)) /\
  ((forall m, Script.importable py m = true) ->
   Script.union_types py = true ->
     r = (Some (Script.NameError "name"), Script.frame_at_guard file)) /\
  (exists err, r.1 = Some err) /\
  Script.calls r.2 = [].
Proof.
  intros Hbuiltin r.
  destruct (name_unbound_at_guard file) as (Hname & _ & _ & Hcalls).
  pose proof (entry_guard_unbound py (Script.frame_at_guard file)
                Hname Hbuiltin) as Hguard.
  assert (Hcases := top_level_cases py file Script.entry_guard).
  fold Script.translate_wav_py in Hcases.
  fold (Script.run_script py file) in Hcases. fold r in Hcases.
  rewrite Hguard in Hcases.
  split; [intros f Hf; apply entry_guard_unbound; assumption|].
  split; [|split].
  - intros Himport Hunion.
    destruct Hcases as [(err & f & _ & _ & [(m & _ & Hm)|[_ Hu]])|Hr];
      [| |exact Hr].
    + rewrite Himport in Hm. discriminate.
    + rewrite Hunion in Hu. discriminate.
  - destruct Hcases as [(err & f & -> & _)| ->]; eauto.
  - destruct Hcases as [(err & f & -> & Hf & _)| ->]; [exact Hf|exact Hcalls].
Qed.

Lemma entry_guard_never_reaches_main_witness :
  Script.run_script Sample.python "translate_wav.py" =
    (Some (Script.NameError "name"),
     Script.frame_at_guard "translate_wav.py") /\
  Script.calls
    (Script.run_script Sample.python_without_sdk "translate_wav.py").2 = [].
Proof.
  split.
  - apply (entry_guard_never_reaches_main Sample.python "translate_wav.py").
    + vm_compute. intros H. discriminate H.
    + intros m. reflexivity.
    + reflexivity.
  - apply (entry_guard_never_reaches_main Sample.python_without_sdk
             "translate_wav.py").
    vm_compute. intros H. discriminate H.
Defined.

(* ===================================================================== *)
(** ** Further properties of the callbacks *)
(* ===================================================================== *)

Section CallbackFacts.

Import Collector Driver Observed.

Variable target_language : str.

Lemma spec_translated_truthy (rs : list result) :
  Forall (fun t => truthy t = true) (Spec.translated_lines target_language rs).
Proof.
  unfold Spec.translated_lines.
  induction rs as [|r rs IH]; [constructor|].
  cbn [omap list_omap]. fold (omap (Spec.translation_for target_language) rs).
  destruct (Spec.translation_for target_language r) as [t|] eqn:Ht;
    [|exact IH].
  constructor; [|exact IH].
  unfold Spec.translation_for in Ht.
  destruct (decide (reason r = TranslatedSpeech)); [|discriminate].
  destruct (translations r !! target_language) as [t'|]; [|discriminate].
  destruct (truthy t') eqn:Htruthy; [|discriminate].
  injection Ht as <-. exact Htruthy.
Qed.

Local Ltac no_such_line :=
  let H := fresh "H" in
  intros H;
  repeat (apply elem_of_cons in H as [H|H]; [discriminate H|]);
  solve [ apply elem_of_nil in H; destruct H
        | discriminate H
        | destruct H as [? H]; discriminate H ].

Local Ltac lines_done :=
  repeat split; first [reflexivity | no_such_line].

(** What one callback prints, read back as translations and sources. *)
Lemma dispatch_prints (ev : event) (st : state) :
  printed_translations (dispatch target_language ev st).2 =
    Spec.translated_lines target_language (Spec.finalized [ev]) /\
  printed_sources (dispatch target_language ev st).2 =
    Spec.recognized_lines target_language (Spec.finalized [ev]) /\
  (forall d, LineErrorDetails d ∈ (dispatch target_language ev st).2 <->
             ev = Canceled Error d) /\
  (forall why, LineCanceled why ∈ (dispatch target_language ev st).2 <->
               exists d, ev = Canceled why d).
Proof.
  destruct ev as [r|r|why d| |]; cbn [dispatch handle_recognizing
    handle_canceled handle_session_stopped snd].
  - lines_done.
  - rewrite handle_recognized_cases.
    unfold Spec.translated_lines, Spec.recognized_lines, Spec.segment.
    cbn [Spec.finalized omap list_omap].
    rewrite filter_cons, filter_nil.
    destruct (Spec.translation_for target_language r) as [t|] eqn:Ht;
      cbn [snd fst].
    + rewrite decide_True by eauto. lines_done.
    + rewrite (decide_False (P := is_Some None))
        by (intros [? ?]; discriminate).
      destruct (decide (reason r = RecognizedSpeech));
        [destruct (truthy_opt (text r))|]; lines_done.
  - destruct (decide (why = Error)) as [->|Hne].
    + repeat split; try reflexivity.
      * intros H. apply elem_of_cons in H as [H|H]; [discriminate H|].
        apply list_elem_of_singleton in H. injection H as ->. reflexivity.
      * intros [= ->]. apply elem_of_cons. right. apply list_elem_of_singleton.
        reflexivity.
      * intros H. apply elem_of_cons in H as [H|H].
        -- injection H as ->. eauto.
        -- apply list_elem_of_singleton in H. discriminate H.
      * intros [d' [= -> _]]. apply elem_of_cons. left. reflexivity.
    + repeat split; try reflexivity.
      * intros H. apply list_elem_of_singleton in H. discriminate H.
      * intros [= -> _]. destruct Hne. reflexivity.
      * intros H. apply list_elem_of_singleton in H. injection H as ->. eauto.
      * intros [d' [= -> _]]. apply list_elem_of_singleton. reflexivity.
  - lines_done.
  - lines_done.
Qed.

Lemma deliver_all_prints (evs : list event) :
  forall st : state,
  printed_translations (deliver_all target_language evs st).2 =
    Spec.translated_lines target_language (Spec.finalized evs) /\
  printed_sources (deliver_all target_language evs st).2 =
    Spec.recognized_lines target_language (Spec.finalized evs) /\
  (forall d, LineErrorDetails d ∈ (deliver_all target_language evs st).2 <->
             Canceled Error d ∈ evs) /\
  (forall why, LineCanceled why ∈ (deliver_all target_language evs st).2 <->
               exists d, Canceled why d ∈ evs).
Proof.
  induction evs as [|ev evs IH]; intros st.
  - cbn [deliver_all snd]. repeat split; try reflexivity;
      try (intros H; apply elem_of_nil in H; destruct H).
    intros [d H]. apply elem_of_nil in H. destruct H.
  - rewrite finalized_cons, spec_translated_app, spec_recognized_app.
    cbn [deliver_all].
    destruct (dispatch_prints ev st) as (Ht & Hs & Hd & Hc).
    destruct (dispatch target_language ev st) as [st1 out1].
    destruct (IH st1) as (Ht' & Hs' & Hd' & Hc').
    destruct (deliver_all target_language evs st1) as [st2 out2].
    cbn [snd] in *.
    unfold printed_translations, printed_sources in *.
    rewrite !omap_app, Ht, Hs, Ht', Hs'.
    split; [reflexivity|]. split; [reflexivity|]. split.
    + intros d. rewrite elem_of_app, elem_of_cons, Hd, Hd'.
      split; intros [H|H]; auto.
    + intros why. rewrite elem_of_app, Hc, Hc'. split.
      * intros [[d ->]|[d H]]; exists d; apply elem_of_cons; auto.
      * intros [d H]. apply elem_of_cons in H as [<-|H]; eauto.
Qed.

End CallbackFacts.

(** X1.  The accumulators are a function of the finalized results alone:
    interim results, cancellations, stops and events without a callback
    may be dropped from a stream, or interleaved anywhere, without
    changing either sequence. *)
Theorem bundle_ignores_other_events (target_language : str)
  (evs : list event) :
  let st := (Collector.deliver_all target_language evs Collector.init).1 in
  let st' := Collector.collect target_language (Spec.finalized evs) in
  Collector.translated_lines st = Collector.translated_lines st' /\
  Collector.recognized_lines st = Collector.recognized_lines st'.
Proof.
  intros st st'. subst st st'. unfold Collector.collect.
  destruct (deliver_all_lines target_language evs Collector.init) as [Ht Hr].
  destruct (deliver_all_lines target_language
              (Recognized <$> Spec.finalized evs) Collector.init) as [Ht' Hr'].
  rewrite finalized_recognized in Ht', Hr'.
  split; [exact (eq_trans Ht (eq_sym Ht'))|exact (eq_trans Hr (eq_sym Hr'))].
Qed.

(** X2.  After any batch of events, from any state, [done] is set exactly
    when it was set before or the batch holds a cancellation or a
    session-stopped event: once set it stays set, and when it becomes
    set some event of the batch is a cancellation or a stop. *)
Theorem completion_flag_tracks_terminal_events (target_language : str)
  (evs : list event) (st : Collector.state) :
  let st' := (Collector.deliver_all target_language evs st).1 in
  Collector.done st' = Collector.done st || existsb Driver.terminal evs /\
  (Collector.done st = true -> Collector.done st' = true) /\
  (Collector.done st = false -> Collector.done st' = true ->
   exists ev, ev ∈ evs /\
     (ev = SessionStopped \/ exists why d, ev = Canceled why d)).
Proof.
  intros st'. subst st'.
  pose proof (deliver_all_done target_language evs st) as Hd.
  split; [exact Hd|]. split.
  - intros Hset. rewrite Hd, Hset. reflexivity.
  - intros Hclear Hset. rewrite Hd, Hclear in Hset. cbn [orb] in Hset.
    apply existsb_exists in Hset as (ev & Hin & Hterm).
    exists ev. split; [apply list_elem_of_In, Hin|].
    destruct ev; try discriminate Hterm; eauto.
Qed.

(** X3.  Whatever the events, no translated line in the accumulator is
    the empty string. *)
Theorem translated_lines_never_empty (target_language : str)
  (evs : list event) :
  Forall (fun t => t <> [])
    (Collector.translated_lines
       (Collector.deliver_all target_language evs Collector.init).1).
Proof.
  destruct (deliver_all_lines target_language evs Collector.init) as [-> _].
  cbn [Collector.init Collector.translated_lines app].
  eapply Forall_impl; [apply spec_translated_truthy|].
  intros t Ht ->. discriminate Ht.
Qed.

(** X4.  The console mirrors the bundle: the translated texts printed, in
    order, are the translated lines, and the source texts printed, in
    order, are the recognized lines. *)
Theorem console_mirrors_bundle (target_language : str) (evs : list event) :
  let r := Collector.deliver_all target_language evs Collector.init in
  Observed.printed_translations r.2 = Collector.translated_lines r.1 /\
  Observed.printed_sources r.2 = Collector.recognized_lines r.1.
Proof.
  intros r. subst r.
  destruct (deliver_all_prints target_language evs Collector.init)
    as (-> & -> & _).
  destruct (deliver_all_lines target_language evs Collector.init) as [-> ->].
  split; reflexivity.
Qed.

(** X5.  The callbacks print the error details [d] exactly when the
    stream holds a cancellation with reason [Error] and details [d], and
    a cancellation line for a reason exactly when the stream holds a
    cancellation for that reason; a cancellation for another reason
    prints no error details. *)
Theorem error_details_only_for_error_cancellations (target_language : str)
  (evs : list event) (st : Collector.state) :
  (forall d,
     LineErrorDetails d ∈ (Collector.deliver_all target_language evs st).2 <->
     Canceled Error d ∈ evs) /\
  (forall why,
     LineCanceled why ∈ (Collector.deliver_all target_language evs st).2 <->
     exists d, Canceled why d ∈ evs).
Proof.
  destruct (deliver_all_prints target_language evs st) as (_ & _ & Hd & Hc).
  split; assumption.
Qed.

(* ===================================================================== *)
(** ** Further properties of the session *)
(* ===================================================================== *)

Section SessionFacts.

Import Collector Driver Run.

Variables (h : host) (sdk : collaborator) (fuel : nat).
Variables (wav_path target_language : str).
Variables (source_language output_txt : option str).
Variable files : gmap str node.

Hypothesis Hcred : credentials_present h.
Hypothesis Hfile : is_regular_file files wav_path = true.

Local Abbreviation run :=
  (translate_wav h sdk fuel wav_path target_language
     source_language output_txt (fresh files)).

Local Abbreviation validation :=
  [Getenv KEY_VAR; Getenv REGION_VAR; IsFile wav_path].

(** The run whose loop is still spinning when the fuel is gone, with its
    trace. *)
Lemma translate_wav_hung :
  wait_loop target_language fuel (deliveries sdk) 0 init (stream sdk) = None ->
  exists rcg es,
    run = (Hangs,
           {| fs := files;
              trace := validation ++ es ++ [NewRecognizer rcg] ++
                       session_prologue |}) /\
    Forall (fun e => constructs_session_object e = true) es.
Proof.
  intros Hloop.
  rewrite translate_wav_validated by assumption.
  unfold mbind, M_bind.
  destruct (configure_result (default [] (environ h !! KEY_VAR))
              (default [] (environ h !! REGION_VAR)) wav_path
              target_language source_language
              {| fs := fs (fresh files);
                 trace := trace (fresh files) ++ validation |})
    as (rcg & es & -> & _ & Hes).
  rewrite (run_session_hangs sdk fuel target_language _ Hloop).
  exists rcg, es. cbn [fs trace fresh app]. split.
  - rewrite <- !app_assoc. reflexivity.
  - eapply Forall_impl; [exact Hes|]. intros e (He & _). exact He.
Qed.

(** The run whose loop has ended, with the trace up to the output
    writer. *)
Lemma translate_wav_ended st out pending :
  wait_loop target_language fuel (deliveries sdk) 0 init (stream sdk) =
    Some (st, out, pending) ->
  let late := deliver_all target_language (take (on_stop sdk) pending) st in
  let bundle := (translated_lines late.1, recognized_lines late.1) in
  exists rcg es w_s,
    fs w_s = files /\
    trace w_s = validation ++ es ++ [NewRecognizer rcg] ++ session_prologue ++
                (Print <$> out) ++ [StopContinuousRecognition] ++
                (Print <$> late.2) /\
    Forall (fun e => constructs_session_object e = true) es /\
    run = (after_write (write_output h bundle.1 output_txt w_s).1 bundle,
           (write_output h bundle.1 output_txt w_s).2).
Proof.
  intros Hloop late bundle.
  rewrite translate_wav_validated by assumption.
  unfold mbind, M_bind.
  destruct (configure_result (default [] (environ h !! KEY_VAR))
              (default [] (environ h !! REGION_VAR)) wav_path
              target_language source_language
              {| fs := fs (fresh files);
                 trace := trace (fresh files) ++ validation |})
    as (rcg & es & -> & _ & Hes).
  rewrite (run_session_returns sdk fuel target_language _ _ _ _ Hloop).
  fold late. cbn [fs trace fresh].
  exists rcg, es. eexists. split; [|split; [|split]]; [| | |
    destruct (write_output h (translated_lines late.1) output_txt _)
      as [[u|e|] w'] eqn:Hw; subst bundle; cbn [fst snd];
      rewrite Hw; reflexivity].
  - reflexivity.
  - cbn [trace app]. rewrite <- !app_assoc. reflexivity.
  - eapply Forall_impl; [exact Hes|]. intros e (He & _). exact He.
Qed.

(** The callbacks have run, in order, for some first part of the stream
    by the time the session has stopped. *)
Lemma session_is_a_prefix st out pending :
  wait_loop target_language fuel (deliveries sdk) 0 init (stream sdk) =
    Some (st, out, pending) ->
  exists m,
    existsb terminal (take m (stream sdk)) = true /\
    deliver_all target_language (take (on_stop sdk) pending) st =
    ((deliver_all target_language (take m (stream sdk)) init).1,
     (deliver_all target_language (take (on_stop sdk) pending) st).2) /\
    (deliver_all target_language (take m (stream sdk)) init).2 =
      out ++ (deliver_all target_language (take (on_stop sdk) pending) st).2.
Proof.
  intros Hloop.
  apply wait_loop_result in Hloop as (n & -> & Hn & Hdone).
  exists (n + on_stop sdk)%nat.
  rewrite take_plus, deliver_all_app, Hn, existsb_app.
  pose proof (deliver_all_done target_language (take n (stream sdk)) init)
    as Hd.
  rewrite Hn in Hd. cbn [fst init done orb] in Hd.
  rewrite <- Hd, Hdone.
  destruct (deliver_all target_language
              (take (on_stop sdk) (drop n (stream sdk))) st) as [st' out'].
  repeat split.
Qed.

Lemma write_output_never_hangs (lines : list str) (w : world) :
  (write_output h lines output_txt w).1 <> Hangs.
Proof.
  destruct (truthy_opt output_txt) eqn:Hout.
  - destruct output_txt as [path|]; [|discriminate].
    rewrite write_output_cases by exact Hout.
    destruct (fs w !! path) as [[content|]|];
      try destruct (utf8_encode _); discriminate.
  - rewrite write_output_skipped by exact Hout. discriminate.
Qed.

End SessionFacts.

(** X6.  A validated run ends its wait as soon as the schedule has handed
    over a cancellation or session-stopped event, whatever else the
    stream holds before or after it: with a terminal event among the
    events delivered in the first T rounds and fuel for T rounds, the
    function does not hang. *)
Theorem terminal_event_ends_the_wait (h : Run.host)
  (sdk : Driver.collaborator) (fuel T : nat)
  (wav_path target_language : str)
  (source_language output_txt : option str) (files : gmap str Run.node) :
  Run.credentials_present h ->
  Run.is_regular_file files wav_path = true ->
  existsb Driver.terminal
    (take (Driver.delivered (Driver.deliveries sdk) 0 T) (Driver.stream sdk))
    = true ->
  (T <= fuel)%nat ->
  (Run.translate_wav h sdk fuel wav_path target_language
     source_language output_txt (Run.fresh files)).1 <> Run.Hangs.
Proof.
  intros Hcred Hfile Hterm Hfuel.
  destruct (wait_loop_terminates target_language (Driver.deliveries sdk) T
              0 Collector.init (Driver.stream sdk) Hterm fuel Hfuel)
    as [[[st out] pending] Hloop].
  destruct (translate_wav_ended h sdk fuel wav_path target_language
              source_language output_txt files Hcred Hfile st out pending Hloop)
    as (rcg & es & w_s & _ & _ & _ & ->).
  cbn [fst].
  pose proof (write_output_never_hangs h output_txt
                (Collector.translated_lines
                   (Collector.deliver_all target_language
                      (take (Driver.on_stop sdk) pending) st).1) w_s) as Hw.
  cbn [fst] in *.
  destruct (Run.write_output h _ output_txt w_s).1; try discriminate.
  destruct Hw. reflexivity.
Qed.

Lemma terminal_event_ends_the_wait_witness :
  ~ (Run.translate_wav Sample.posix Observed.end_of_file_session 3
       Sample.talk_wav Sample.es None None (Run.fresh Sample.files)).1 =
    Run.Hangs.
Proof.
  apply (terminal_event_ends_the_wait Sample.posix
           Observed.end_of_file_session 3 3).
  - split; vm_compute; reflexivity.
  - vm_compute. reflexivity.
  - vm_compute. reflexivity.
  - lia.
Defined.

(** X7.  Whatever the stream and the schedule, a bundle that a validated
    run returns is the bundle of a first part of the stream that holds a
    terminal event: every finalized result ahead of the first
    cancellation or stop is in it, in order, nothing is in it twice, and
    what follows that event is in it only as far as the callbacks got. *)
Theorem returned_bundle_is_a_prefix (h : Run.host)
  (sdk : Driver.collaborator) (fuel : nat)
  (wav_path target_language : str)
  (source_language output_txt : option str) (files : gmap str Run.node)
  (translated recognized : list str) :
  Run.credentials_present h ->
  Run.is_regular_file files wav_path = true ->
  (Run.translate_wav h sdk fuel wav_path target_language
     source_language output_txt (Run.fresh files)).1 =
    Run.Returned (translated, recognized) ->
  exists m,
    existsb Driver.terminal (take m (Driver.stream sdk)) = true /\
    translated =
      Spec.translated_lines target_language
        (Spec.finalized (take m (Driver.stream sdk))) /\
    recognized =
      Spec.recognized_lines target_language
        (Spec.finalized (take m (Driver.stream sdk))).
Proof.
  intros Hcred Hfile Hret.
  destruct (Driver.wait_loop target_language fuel (Driver.deliveries sdk) 0
              Collector.init (Driver.stream sdk))
    as [[[st out] pending]|] eqn:Hloop.
  - destruct (translate_wav_ended h sdk fuel wav_path target_language
                source_language output_txt files Hcred Hfile st out pending
                Hloop) as (rcg & es & w_s & _ & _ & _ & Hrun).
    rewrite Hrun in Hret. cbn [fst] in Hret.
    destruct (session_is_a_prefix sdk fuel target_language st out pending
                Hloop) as (m & Hterm & Hlate & _).
    rewrite Hlate in Hret. cbn [fst] in Hret.
    destruct (deliver_all_lines target_language (take m (Driver.stream sdk))
                Collector.init) as [Ht Hr].
    cbn [Collector.init Collector.translated_lines
         Collector.recognized_lines app] in Ht, Hr.
    rewrite Ht, Hr in Hret.
    destruct (Run.write_output h _ output_txt w_s).1; try discriminate.
    injection Hret as <- <-. exists m. auto.
  - rewrite (translate_wav_spins h sdk fuel wav_path target_language
               source_language output_txt files Hcred Hfile Hloop) in Hret.
    discriminate.
Qed.

Lemma returned_bundle_is_a_prefix_witness :
  exists m,
    existsb Driver.terminal
      (take m (Driver.stream Observed.end_of_file_session)) = true /\
    [lit "Hola"; lit "Mundo"] =
      Spec.translated_lines Sample.es
        (Spec.finalized (take m (Driver.stream Observed.end_of_file_session))) /\
    [lit "Hello"; lit "World"] =
      Spec.recognized_lines Sample.es
        (Spec.finalized (take m (Driver.stream Observed.end_of_file_session))).
Proof.
  apply (returned_bundle_is_a_prefix Sample.posix
           Observed.end_of_file_session 3 Sample.talk_wav Sample.es
           None None Sample.files).
  - split; vm_compute; reflexivity.
  - vm_compute. reflexivity.
  - vm_compute. reflexivity.
Defined.

(** What follows the first terminal event is collected or not depending
    on how the events are handed over. *)
Example late_result_depends_on_timing :
  (Run.translate_wav Sample.posix (Observed.late_result_session 2) 2
     Sample.talk_wav Sample.es None None (Run.fresh Sample.files)).1 =
    Run.Returned ([lit "Hola"], [lit "Hello"]) /\
  (Run.translate_wav Sample.posix (Observed.late_result_session 3) 2
     Sample.talk_wav Sample.es None None (Run.fresh Sample.files)).1 =
    Run.Returned ([lit "Hola"; lit "Mundo"], [lit "Hello"; lit "World"]).
Proof. split; vm_compute; reflexivity. Qed.

(** X8.  A validated run against a stream without a cancellation or
    session-stopped event never returns and never raises, whatever the
    schedule and however long it is given; it leaves the files alone and
    never gets to stop the session. *)
Theorem no_terminal_event_hangs (h : Run.host)
  (sdk : Driver.collaborator) (fuel : nat)
  (wav_path target_language : str)
  (source_language output_txt : option str) (files : gmap str Run.node) :
  Run.credentials_present h ->
  Run.is_regular_file files wav_path = true ->
  existsb Driver.terminal (Driver.stream sdk) = false ->
  let r := Run.translate_wav h sdk fuel wav_path target_language
             source_language output_txt (Run.fresh files) in
  r.1 = Run.Hangs /\
  Run.fs r.2 = files /\
  Run.StartContinuousRecognition ∈ Run.trace r.2 /\
  (Run.StopContinuousRecognition ∉ Run.trace r.2) /\
  Forall (fun e => Run.writes_file e = false) (Run.trace r.2).
Proof.
  intros Hcred Hfile Hstream r. subst r.
  pose proof (wait_loop_spins target_language (Driver.deliveries sdk) fuel 0
                Collector.init (Driver.stream sdk) eq_refl Hstream) as Hloop.
  destruct (translate_wav_hung h sdk fuel wav_path target_language
              source_language output_txt files Hcred Hfile Hloop)
    as (rcg & es & -> & Hes).
  cbn [fst snd Run.fs Run.trace].
  split; [reflexivity|]. split; [reflexivity|]. split; [|split].
  - rewrite !elem_of_app. right. right. right.
    unfold Run.session_prologue. rewrite !elem_of_cons. auto 10.
  - rewrite !not_elem_of_app. repeat split.
    + intros H. repeat (apply elem_of_cons in H as [H|H]; [discriminate H|]).
      apply elem_of_nil in H. exact H.
    + intros H. rewrite Forall_forall in Hes.
      specialize (Hes _ H). discriminate Hes.
    + intros H. apply list_elem_of_singleton in H. discriminate H.
    + intros H. unfold Run.session_prologue in H.
      repeat (apply elem_of_cons in H as [H|H]; [discriminate H|]).
      apply elem_of_nil in H. exact H.
  - rewrite !Forall_app. repeat split; repeat constructor.
    eapply Forall_impl; [exact Hes|]. apply session_objects_write_nothing.
Qed.

Lemma no_terminal_event_hangs_witness :
  (Run.translate_wav Sample.posix Sample.silent_session 1000
     Sample.talk_wav Sample.es None (Some Sample.out_txt)
     (Run.fresh Sample.files)).1 = Run.Hangs.
Proof.
  apply (no_terminal_event_hangs Sample.posix Sample.silent_session 1000
           Sample.talk_wav Sample.es None (Some Sample.out_txt) Sample.files).
  - split; vm_compute; reflexivity.
  - vm_compute. reflexivity.
  - reflexivity.
Defined.

(** X9.  For a stream that ends with its only terminal event, the outcome
    and the files left behind do not depend on the timing: two
    collaborators raising the same stream, each on its own schedule and
    with its own behaviour on stop, give the same result as soon as each
    gets to the end of the stream. *)
Theorem outcome_independent_of_schedule (h : Run.host)
  (sdk1 sdk2 : Driver.collaborator) (fuel1 fuel2 T1 T2 : nat)
  (wav_path target_language : str)
  (source_language output_txt : option str) (files : gmap str Run.node)
  (pre : list event) (term : event) :
  Run.credentials_present h ->
  Run.is_regular_file files wav_path = true ->
  Driver.stream sdk1 = pre ++ [term] ->
  Driver.stream sdk2 = pre ++ [term] ->
  existsb Driver.terminal pre = false ->
  Driver.terminal term = true ->
  (length (Driver.stream sdk1) <=
     Driver.delivered (Driver.deliveries sdk1) 0 T1)%nat ->
  (length (Driver.stream sdk2) <=
     Driver.delivered (Driver.deliveries sdk2) 0 T2)%nat ->
  (T1 <= fuel1)%nat ->
  (T2 <= fuel2)%nat ->
  let r1 := Run.translate_wav h sdk1 fuel1 wav_path target_language
              source_language output_txt (Run.fresh files) in
  let r2 := Run.translate_wav h sdk2 fuel2 wav_path target_language
              source_language output_txt (Run.fresh files) in
  r1.1 = r2.1 /\ Run.fs r1.2 = Run.fs r2.2.
Proof.
  intros Hcred Hfile Hs1 Hs2 Hpre Hterm Hlen1 Hlen2 Hfuel1 Hfuel2 r1 r2.
  destruct (translate_wav_whole_stream h sdk1 fuel1 T1 wav_path
              target_language source_language output_txt files pre term
              Hcred Hfile Hs1 Hpre Hterm Hlen1 Hfuel1) as (Ho1 & Hf1 & _).
  destruct (translate_wav_whole_stream h sdk2 fuel2 T2 wav_path
              target_language source_language output_txt files pre term
              Hcred Hfile Hs2 Hpre Hterm Hlen2 Hfuel2) as (Ho2 & Hf2 & _).
  subst r1 r2. split.
  - rewrite Ho1, Ho2. reflexivity.
  - rewrite Hf1, Hf2. reflexivity.
Qed.

Lemma outcome_independent_of_schedule_witness :
  (Run.translate_wav Sample.posix Sample.clean_session 3
     Sample.talk_wav Sample.es None None (Run.fresh Sample.files)).1 =
  (Run.translate_wav Sample.posix
     {| Driver.stream := Driver.stream Sample.clean_session;
        Driver.deliveries := fun i => match i with 4%nat => 3%nat | _ => 0%nat end;
        Driver.on_stop := 7%nat |}
     9 Sample.talk_wav Sample.es None None (Run.fresh Sample.files)).1.
Proof.
  apply (outcome_independent_of_schedule Sample.posix Sample.clean_session
           _ 3 9 3 5 Sample.talk_wav Sample.es None None Sample.files
           [Recognized Sample.hola; Recognized Sample.mundo] SessionStopped).
  - split; vm_compute; reflexivity.
  - vm_compute. reflexivity.
  - reflexivity.
  - reflexivity.
  - reflexivity.
  - reflexivity.
  - vm_compute. lia.
  - vm_compute. lia.
  - lia.
  - lia.
Defined.

(* ===================================================================== *)
(** ** Further properties of configuration and output *)
(* ===================================================================== *)

(** X10.  An empty string for [source_language] or for [output_txt] is
    the same as leaving the argument out: the function auto-detects the
    source language and writes no file, effect for effect. *)
Theorem empty_strings_as_omitted (h : Run.host)
  (sdk : Driver.collaborator) (fuel : nat) (wav_path target_language : str)
  (source_language output_txt : option str) (w : Run.world) :
  Run.translate_wav h sdk fuel wav_path target_language
    (Some []) output_txt w =
  Run.translate_wav h sdk fuel wav_path target_language
    None output_txt w /\
  Run.translate_wav h sdk fuel wav_path target_language
    source_language (Some []) w =
  Run.translate_wav h sdk fuel wav_path target_language
    source_language None w.
Proof. split; reflexivity. Qed.

(** X11.  The recognizer [configure] builds has exactly one source mode:
    with a non-empty [source_language] it carries that language as its
    recognition language and no auto-detect object, and otherwise no
    recognition language and the auto-detect object for the seven default
    languages.  Either way the key, the region and the path of the
    recording are passed on as given, and no file is touched. *)
Theorem configure_has_one_source_mode
  (speech_key speech_region wav_path target_language : str)
  (source_language : option str) (w : Run.world) :
  exists r,
    Run.configure speech_key speech_region wav_path target_language
      source_language w =
    (Run.Returned r,
     {| Run.fs := Run.fs w;
        Run.trace :=
          Run.trace w ++
          [Run.NewTranslationConfig speech_key speech_region] ++
          (if truthy_opt source_language then []
           else [Run.NewAutoDetect Run.default_languages]) ++
          [Run.NewAudioConfig wav_path; Run.NewRecognizer r] |}) /\
    Run.subscription (Run.translation_config r) = speech_key /\
    Run.region (Run.translation_config r) = speech_region /\
    Run.filename (Run.audio_config r) = wav_path /\
    (Run.speech_recognition_language (Run.translation_config r),
     Run.auto_detect_source_language_config r) =
    (if truthy_opt source_language
     then (source_language, None)
     else (None, Some {| Run.languages := Run.default_languages |})) /\
    length Run.default_languages = 7%nat.
Proof.
  unfold Run.configure, Run.log, mbind, Run.M_bind, mret, Run.M_ret.
  destruct source_language as [[|c s]|]; cbn [truthy_opt truthy Run.fs Run.trace];
    eexists; (split; [rewrite <- !app_assoc; reflexivity|]);
    repeat split; reflexivity.
Qed.

Section OutputFacts.

Import Collector Driver Run.

Variables (h : host) (sdk : collaborator) (fuel : nat).
Variables (wav_path target_language : str).
Variables (source_language output_txt : option str).
Variable files : gmap str node.

Local Abbreviation run :=
  (translate_wav h sdk fuel wav_path target_language
     source_language output_txt (fresh files)).

(** Every run either never gets to the output writer, and then has left
    the files alone and written nothing, or ends in the output writer,
    entered after the session has been stopped. *)
Lemma translate_wav_cases :
  (fs run.2 = files /\
   Forall (fun e => writes_file e = false) (trace run.2)) \/
  (exists lines w_s,
     fs w_s = files /\
     Forall (fun e => writes_file e = false) (trace w_s) /\
     StopContinuousRecognition ∈ trace w_s /\
     run.2 = (write_output h lines output_txt w_s).2).
Proof.
  destruct (truthy_opt (environ h !! KEY_VAR)) eqn:Hkey;
    [|left; rewrite translate_wav_without_credentials by auto;
      cbn [snd fs trace fresh app]; split; [reflexivity|repeat constructor]].
  destruct (truthy_opt (environ h !! REGION_VAR)) eqn:Hregion;
    [|left; rewrite translate_wav_without_credentials by auto;
      cbn [snd fs trace fresh app]; split; [reflexivity|repeat constructor]].
  assert (Hcred : credentials_present h) by (split; assumption).
  destruct (is_regular_file files wav_path) eqn:Hfile;
    [|left; rewrite translate_wav_not_found by assumption;
      cbn [snd fs trace fresh app]; split; [reflexivity|repeat constructor]].
  destruct (wait_loop target_language fuel (deliveries sdk) 0 init (stream sdk))
    as [[[st out] pending]|] eqn:Hloop.
  - right.
    destruct (translate_wav_ended h sdk fuel wav_path target_language
                source_language output_txt files Hcred Hfile st out pending
                Hloop) as (rcg & es & w_s & Hfs & Htrace & Hes & ->).
    eexists _, w_s. split; [exact Hfs|]. split; [|split; [|reflexivity]].
    + rewrite Htrace, !Forall_app. repeat split;
        first [ apply Forall_prints; intros l; reflexivity
              | eapply Forall_impl;
                [exact Hes|apply session_objects_write_nothing]
              | repeat constructor ].
    + rewrite Htrace, !elem_of_app, !list_elem_of_singleton. auto 10.
  - left.
    destruct (translate_wav_hung h sdk fuel wav_path target_language
                source_language output_txt files Hcred Hfile Hloop)
      as (rcg & es & -> & Hes).
    cbn [snd fs trace]. split; [reflexivity|].
    rewrite !Forall_app. repeat split;
      first [ eapply Forall_impl;
              [exact Hes|apply session_objects_write_nothing]
            | repeat constructor ].
Qed.

End OutputFacts.

Section TextFacts.

Import Observed.

Lemma join_cons (sep p q : str) (rest : list str) :
  join sep (p :: q :: rest) = p ++ sep ++ join sep (q :: rest).
Proof. reflexivity. Qed.









(** A line-feed-free text ends where the next line feed is. *)
Lemma split_at_line_feed (x y r r' : str) :
  line_feed_free x -> line_feed_free y ->
  x ++ 10 :: r = y ++ 10 :: r' -> x = y /\ r = r'.
Proof.
  unfold line_feed_free. revert y.
  induction x as [|c x IH]; intros [|d y] Hx Hy Heq; simpl in Heq.
  - injection Heq as <-. auto.
  - injection Heq as <- _. destruct Hy. apply elem_of_cons. auto.
  - injection Heq as -> _. destruct Hx. apply elem_of_cons. auto.
  - injection Heq as <- Heq.
    apply not_elem_of_cons in Hx as [_ Hx].
    apply not_elem_of_cons in Hy as [_ Hy].
    destruct (IH y Hx Hy Heq) as [-> ->]. auto.
Qed.

End TextFacts.

(** X12.  When the output path is a directory, a validated run whose
    session ends raises the error of [open] after the session has been
    stopped: the bundle it has collected is not returned, the trace ends
    with the attempt to open the path, and no file has changed. *)
Theorem directory_output_path_loses_bundle (h : Run.host)
  (sdk : Driver.collaborator) (fuel T : nat)
  (wav_path target_language path : str)
  (source_language : option str) (files : gmap str Run.node) :
  Run.credentials_present h ->
  Run.is_regular_file files wav_path = true ->
  existsb Driver.terminal
    (take (Driver.delivered (Driver.deliveries sdk) 0 T) (Driver.stream sdk))
    = true ->
  (T <= fuel)%nat ->
  truthy path = true ->
  files !! path = Some Run.Directory ->
  let r := Run.translate_wav h sdk fuel wav_path target_language
             source_language (Some path) (Run.fresh files) in
  r.1 = Run.Raised (Run.IsADirectoryError path) /\
  Run.fs r.2 = files /\
  (exists t, Run.trace r.2 = t ++ [Run.OpenWrite path] /\
             Run.StopContinuousRecognition ∈ t).
Proof.
  intros Hcred Hfile Hterm Hfuel Hpath Hdir r. subst r.
  destruct (wait_loop_terminates target_language (Driver.deliveries sdk) T
              0 Collector.init (Driver.stream sdk) Hterm fuel Hfuel)
    as [[[st out] pending] Hloop].
  destruct (translate_wav_ended h sdk fuel wav_path target_language
              source_language (Some path) files Hcred Hfile st out pending
              Hloop) as (rcg & es & w_s & Hfs & Htrace & _ & ->).
  rewrite write_output_cases by exact Hpath.
  rewrite Hfs, Hdir. cbn [fst snd Run.after_write Run.fs Run.trace].
  split; [reflexivity|]. split; [reflexivity|].
  exists (Run.trace w_s). split; [reflexivity|].
  rewrite Htrace, !elem_of_app, !list_elem_of_singleton. auto 10.
Qed.

Lemma directory_output_path_loses_bundle_witness :
  (Run.translate_wav Sample.posix Sample.clean_session 3
     Sample.talk_wav Sample.es None (Some Sample.a_directory)
     (Run.fresh Sample.files)).1 =
  Run.Raised (Run.IsADirectoryError Sample.a_directory).
Proof.
  apply (directory_output_path_loses_bundle Sample.posix Sample.clean_session
           3 3 Sample.talk_wav Sample.es Sample.a_directory None Sample.files).
  - split; vm_compute; reflexivity.
  - vm_compute. reflexivity.
  - vm_compute. reflexivity.
  - lia.
  - reflexivity.
  - vm_compute. reflexivity.
Defined.

Lemma opened_after (t ws a b : list Run.effect) (p : str) :
  Forall (fun e => Run.writes_file e = false) t ->
  t ++ ws = a ++ Run.OpenWrite p :: b ->
  exists a', a = t ++ a' /\ ws = a' ++ Run.OpenWrite p :: b.
Proof.
  revert a. induction t as [|x t IH]; intros a Ht Heq.
  - exists a. auto.
  - inversion Ht as [|? ? Hx Ht']; subst.
    destruct a as [|y a]; simpl in Heq.
    + injection Heq as -> _. discriminate Hx.
    + injection Heq as <- Heq.
      destruct (IH a Ht' Heq) as (a' & -> & ->). exists a'. auto.
Qed.

(** X13.  In every run, whatever its inputs and however it ends, a file
    is opened for writing only after the session has been stopped, and
    the file opened is the one at [output_txt]. *)
Theorem output_opened_only_after_stop (h : Run.host)
  (sdk : Driver.collaborator) (fuel : nat) (wav_path target_language : str)
  (source_language output_txt : option str) (files : gmap str Run.node)
  (a b : list Run.effect) (p : str) :
  Run.trace (Run.translate_wav h sdk fuel wav_path target_language
               source_language output_txt (Run.fresh files)).2 =
    a ++ Run.OpenWrite p :: b ->
  Run.StopContinuousRecognition ∈ a /\
  output_txt = Some p /\
  Forall (fun e => Run.writes_file e = false) a.
Proof.
  intros Htrace.
  assert (Hnone : forall t, Forall (fun e => Run.writes_file e = false) t ->
                            t = a ++ Run.OpenWrite p :: b -> False).
  { intros t Ht ->. apply Forall_app in Ht as [_ Ht].
    inversion Ht as [|? ? Hp _]. discriminate Hp. }
  destruct (translate_wav_cases h sdk fuel wav_path target_language
              source_language output_txt files)
    as [[_ Hno]|(lines & w_s & _ & Hno & Hstop & Hrun)].
  { destruct (Hnone _ Hno Htrace). }
  rewrite Hrun in Htrace.
  destruct (truthy_opt output_txt) eqn:Hout.
  - destruct output_txt as [path|]; [|discriminate].
    rewrite write_output_cases in Htrace by exact Hout.
    assert (Hopen : exists rest,
              Forall (fun e => Run.writes_file e = true -> False) [] /\
              Run.trace w_s ++ Run.OpenWrite path :: rest =
                a ++ Run.OpenWrite p :: b /\
              Run.OpenWrite p ∉ rest).
    { destruct (Run.fs w_s !! path) as [[content|]|];
        try destruct (utf8_encode _) as [data|];
        cbn [snd Run.trace] in Htrace; eexists;
        (split; [constructor|]); (split; [exact Htrace|]);
        intros H; repeat (apply elem_of_cons in H as [H|H]; [discriminate H|]);
        apply elem_of_nil in H; exact H. }
    destruct Hopen as (rest & _ & Heq & Hrest).
    destruct (opened_after _ _ _ _ _ Hno Heq) as (a' & -> & Hws).
    destruct a' as [|y a'']; simpl in Hws.
    + injection Hws as -> _. rewrite app_nil_r. auto.
    + injection Hws as _ ->. destruct Hrest.
      rewrite elem_of_app, elem_of_cons. auto.
  - rewrite write_output_skipped in Htrace by exact Hout.
    destruct (Hnone _ Hno Htrace).
Qed.

Lemma output_opened_only_after_stop_witness :
  Run.StopContinuousRecognition ∈
    take 18
      (Run.trace (Run.translate_wav Sample.posix Sample.clean_session 3
                    Sample.talk_wav Sample.es None (Some Sample.out_txt)
                    (Run.fresh Sample.files)).2).
Proof.
  apply (output_opened_only_after_stop Sample.posix Sample.clean_session 3
           Sample.talk_wav Sample.es None (Some Sample.out_txt) Sample.files
           _ (drop 19
                (Run.trace
                   (Run.translate_wav Sample.posix Sample.clean_session 3
                      Sample.talk_wav Sample.es None (Some Sample.out_txt)
                      (Run.fresh Sample.files)).2))
           Sample.out_txt).
  vm_compute. reflexivity.
Defined.





(** X16.  The text written determines the segments: two lists of
    non-empty lines without line feeds that join to the same text are the
    same list. *)
Theorem joined_text_determines_lines (a b : list str) :
  Forall (fun l => l <> [] /\ Observed.line_feed_free l) a ->
  Forall (fun l => l <> [] /\ Observed.line_feed_free l) b ->
  join LF a = join LF b -> a = b.
Proof.
  revert b.
  induction a as [|p [|q rest] IH]; intros b Ha Hb Heq.
  - destruct b as [|p' [|q' rest']]; [reflexivity| |].
    + inversion Hb as [|? ? [Hne _] _]; subst. simpl in Heq.
      destruct Hne. symmetry. exact Heq.
    + inversion Hb as [|? ? [Hne _] _]; subst. rewrite join_cons in Heq.
      destruct p'; [destruct Hne; reflexivity|discriminate Heq].
  - inversion Ha as [|? ? [Hne Hfree] _]; subst.
    destruct b as [|p' [|q' rest']].
    + simpl in Heq. destruct Hne. exact Heq.
    + simpl in Heq. subst. reflexivity.
    + cbn [join] in Heq. fold (join LF (q' :: rest')) in Heq.
      destruct Hfree. rewrite Heq. unfold LF.
      rewrite elem_of_app, elem_of_app, list_elem_of_singleton. auto.
  - inversion Ha as [|? ? [Hne Hfree] Ha']; subst.
    destruct b as [|p' [|q' rest']].
    + rewrite join_cons in Heq.
      destruct p; [destruct Hne; reflexivity|discriminate Heq].
    + inversion Hb as [|? ? [_ Hfree'] _]; subst.
      rewrite join_cons in Heq. cbn [join] in Heq.
      destruct Hfree'. rewrite <- Heq. unfold LF.
      rewrite elem_of_app, elem_of_app, list_elem_of_singleton. auto.
    + inversion Hb as [|? ? [_ Hfree'] Hb']; subst.
      rewrite !join_cons in Heq. unfold LF in Heq. simpl in Heq.
      destruct (split_at_line_feed _ _ _ _ Hfree Hfree' Heq) as [-> Hrest].
      f_equal. apply IH; assumption.
Qed.

Lemma joined_text_determines_lines_witness :
  Collector.translated_lines
    (Collector.collect Sample.es [Sample.hola; Sample.blank; Sample.mundo]) =
  [lit "Hola"; lit "Mundo"].
Proof.
  apply (joined_text_determines_lines
           (Collector.translated_lines
              (Collector.collect Sample.es
                 [Sample.hola; Sample.blank; Sample.mundo]))
           [lit "Hola"; lit "Mundo"]).
  - vm_compute. repeat constructor; try discriminate; intros H;
      repeat (apply elem_of_cons in H as [H|H]; [discriminate H|]);
      apply elem_of_nil in H; exact H.
  - repeat constructor; try discriminate; unfold Observed.line_feed_free;
      vm_compute; intros H;
      repeat (apply elem_of_cons in H as [H|H]; [discriminate H|]);
      apply elem_of_nil in H; exact H.
  - vm_compute. reflexivity.
Defined.





(* ===================================================================== *)
(** ** Importing the file *)
(* ===================================================================== *)

Section ImportFacts.

Import Script Observed.

Local Open Scope string_scope.

Variables (py : interpreter) (f0 : frame).

Lemma at_guard_lookup :
  globals f0 !! "name" = None ->
  globals (at_guard f0) !! "name" = None /\
  calls (at_guard f0) = calls f0.
Proof.
  intros Hname. unfold at_guard, bind. cbn [globals calls].
  split; [|reflexivity].
  rewrite !lookup_insert_ne by discriminate. exact Hname.
Qed.

Lemma top_level_cases_from (guard : stmt) :
  (exists err f,
     exec_block py (top_level guard) f0 = (Some err, f) /\
     calls f = calls f0 /\
     ((exists m, err = ImportError m /\ importable py m = false) \/
      (err = TypeError /\ union_types py = false))) \/
  exec_block py (top_level guard) f0 =
  match exec py guard (at_guard f0) with
  | (None, f) => (None, f)
  | (Some err, f) => (Some err, f)
  end.
Proof.
  unfold top_level. cbn [exec_block exec].
  destruct (importable py "os") eqn:H1; [|left; eauto 10].
  destruct (importable py "sys") eqn:H2; [|left; eauto 10].
  destruct (importable py "argparse") eqn:H3; [|left; eauto 10].
  destruct (importable py "azure.cognitiveservices.speech") eqn:H4;
    [|left; eauto 10].
  destruct (importable py "datetime") eqn:H5; [|left; eauto 10].
  destruct (union_types py) eqn:H6; cbn [andb negb]; [|left; eauto 10].
  right. reflexivity.
Qed.

End ImportFacts.

(** X19.  The top level fails from any starting frame that does not bind
    [name], so importing the file fails as running it does, whatever the
    name it is imported under, the name [main] included: the statements
    end with an exception and without a call, and [translate_wav] cannot
    be obtained by import.  When the imports and [def]s succeed the
    exception is the unbound-name error of the guard. *)
Theorem import_fails_like_script (py : Script.interpreter)
  (f0 : Script.frame) :
  ("name" : string) ∉ Script.builtins py ->
  Script.globals f0 !! ("name" : string) = None ->
  Script.calls f0 = [] ->
  let r := Script.exec_block py Script.translate_wav_py f0 in
  (exists err, r.1 = Some err) /\
  Script.calls r.2 = [] /\
  ((forall m, Script.importable py m = true) ->
   Script.union_types py = true ->
   r = (Some (Script.NameError "name"), Observed.at_guard f0)).
Proof.
  intros Hbuiltin Hname Hcalls r.
  destruct (at_guard_lookup f0 Hname) as [Hname' Hcalls'].
  pose proof (entry_guard_unbound py (Observed.at_guard f0) Hname' Hbuiltin)
    as Hguard.
  assert (Hcases := top_level_cases_from py f0 Script.entry_guard).
  fold Script.translate_wav_py in Hcases. fold r in Hcases.
  rewrite Hguard in Hcases.
  split; [|split].
  - destruct Hcases as [(err & f & -> & _)| ->]; eauto.
  - destruct Hcases as [(err & f & -> & Hf & _)| ->]; cbn [snd].
    + rewrite Hf. exact Hcalls.
    + rewrite Hcalls'. exact Hcalls.
  - intros Himport Hunion.
    destruct Hcases as [(err & f & _ & _ & [(m & _ & Hm)|[_ Hu]])|Hr];
      [| |exact Hr].
    + rewrite Himport in Hm. discriminate.
    + rewrite Hunion in Hu. discriminate.
Qed.

Lemma import_fails_like_script_witness :
  Script.exec_block Sample.python Script.translate_wav_py
    (Observed.module_frame "translate_wav" "translate_wav.py") =
    (Some (Script.NameError "name"),
     Observed.at_guard
       (Observed.module_frame "translate_wav" "translate_wav.py")) /\
  Script.calls
    (Script.exec_block Sample.python Script.translate_wav_py
       (Observed.module_frame "main" "translate_wav.py")).2 = [].
Proof.
  split.
  - apply (import_fails_like_script Sample.python
             (Observed.module_frame "translate_wav" "translate_wav.py")).
    + vm_compute. intros H. discriminate H.
    + vm_compute. reflexivity.
    + reflexivity.
    + intros m. reflexivity.
    + reflexivity.
  - apply (import_fails_like_script Sample.python
             (Observed.module_frame "main" "translate_wav.py")).
    + vm_compute. intros H. discriminate H.
    + vm_compute. reflexivity.
    + reflexivity.
Defined.
